(** * Scriberr: transcription job engine and its collaborators

  A shallow embedding of the Go sources of Scriberr
  (process-group setup, the logger package, the static routes and the
  configuration: loading, environment detection and snapshot)
  together with the engine components that the design document
  describes (cancellation, merge, progress tracking, job claim). *)

From stdpp Require Import gmap strings list sorting pretty.
From Stdlib Require Import ZArith Lia.

Local Open Scope string_scope.

(** ** Go values of dynamic type [any]: the plain data that the sources
    pass around, and values that bring their own [MarshalJSON] *)

Local Set Warnings "-register-all".

(** The kinds of [zapcore.Field] that the logger package builds. *)
Inductive FieldType : Type :=
| StringType | BoolType | Int64Type | DurationType | ErrorType
| ReflectType | SkipType.

(** What the [MarshalJSON] method of a value does when the JSON encoder
    calls it: it returns the bytes, returns an error, or panics. *)
Inductive Marshal : Type :=
| MarshalBytes (bytes : string)
| MarshalError (err : string)
| MarshalPanic (p : string).

Inductive any : Type :=
| AString (s : string)
| ABool (b : bool)
| AInt (n : Z)
| ADuration (nanos : Z)
| AError (msg : string)
| AMap (m : gmap string any)
| AField (t : FieldType) (key : string) (v : any)
| AMarshaler (m : Marshal)
| ANil.

(** ** internal/transcription: per-platform process attributes *)

Module SysProc.

(** [syscall.SysProcAttr]; every field has Go's zero value unless set. *)
Record SysProcAttr := mkSysProcAttr {
  Chroot : string;
  Setsid : bool;
  Setpgid : bool;
  Setctty : bool;
  Noctty : bool;
  Foreground : bool;
  Pgid : Z
}.

(** The composite literal [syscall.SysProcAttr{}]. *)
Definition zeroSysProcAttr : SysProcAttr :=
  {| Chroot := ""; Setsid := false; Setpgid := false; Setctty := false;
     Noctty := false; Foreground := false; Pgid := 0 |}.

(** [exec.Cmd]; the pointer field [SysProcAttr] is [None] when nil. *)
Record Cmd := mkCmd {
  Path : string;
  Args : list string;
  Env : list string;
  Dir : string;
  SysProcAttr_ : option SysProcAttr
}.

Definition set_SysProcAttr (cmd : Cmd) (a : option SysProcAttr) : Cmd :=
  {| Path := Path cmd; Args := Args cmd; Env := Env cmd; Dir := Dir cmd;
     SysProcAttr_ := a |}.

(** The four fields of the command that the setup does not assign. *)
Definition same_command (a b : Cmd) : Prop :=
  Path a = Path b ∧ Args a = Args b ∧ Env a = Env b ∧ Dir a = Dir b.

(** sysproc_linux.go *)
Module Linux.
Definition ConfigureCmdSysProcAttr (cmd : Cmd) : Cmd :=
    set_SysProcAttr cmd
      (Some {| Chroot := ""; Setsid := false; Setpgid := true;
               Setctty := false; Noctty := false; Foreground := false;
               Pgid := 0 |}).
End Linux.

(** sysproc_darwin.go *)
Module Darwin.
Definition ConfigureCmdSysProcAttr (cmd : Cmd) : Cmd :=
    set_SysProcAttr cmd
      (Some {| Chroot := ""; Setsid := false; Setpgid := true;
               Setctty := false; Noctty := false; Foreground := false;
               Pgid := 0 |}).
End Darwin.

(** The windows build: the body is empty. *)
Module Windows.
Definition ConfigureCmdSysProcAttr (cmd : Cmd) : Cmd := cmd.
End Windows.

(** What the operating system does with the attributes when the child is
    forked: with [Setpgid] the child calls setpgid(0, Pgid), and a zero
    [Pgid] makes the child the leader of a new group named by its own
    pid; otherwise the child stays in the group of its parent. *)
Definition child_pgid (attr : option SysProcAttr) (parent_pgid child_pid : Z) : Z :=
  match attr with
  | Some a =>
      if Setpgid a then (if (Pgid a =? 0)%Z then child_pid else Pgid a)
      else parent_pgid
  | None => parent_pgid
  end.

End SysProc.

(** ** internal/config: configuration snapshot *)

Module Config.

Record Environment := mkEnvironment {
  OS : string;
  Arch : string;
  SupportsNvidiaStack : bool;
  SupportsMPS : bool;
  DefaultWhisperDevice : string
}.

Record Config := mkConfig {
  Port : string;
  Host : string;
  DatabasePath : string;
  JWTSecret : string;
  UploadDir : string;
  UVPath : string;
  WhisperXEnv : string;
  Environment_ : Environment
}.

(** The outcome of calling a method through a pointer: a nil dereference
    panics, anything else returns. *)
Inductive outcome (A : Type) : Type :=
| Returns (a : A)
| Panics.
Arguments Returns {A} a.
Arguments Panics {A}.

(** Reading a field through a [*Config]. *)
Definition deref (c : option Config) : outcome Config :=
  match c with
  | Some v => Returns v
  | None => Panics
  end.

(** [Snapshot], a method on a pointer receiver: the receiver is tested
    against nil before any field is read. *)
Definition Snapshot (c : option Config) : outcome (gmap string any) :=
  match c with
  | None => Returns ∅
  | Some _ =>
      match deref c with
      | Panics => Panics
      | Returns v =>
          Returns
            (<["port" := AString (Port v)]>
            (<["host" := AString (Host v)]>
            (<["database_path" := AString (DatabasePath v)]>
            (<["jwt_secret" := AString (JWTSecret v)]>
            (<["upload_dir" := AString (UploadDir v)]>
            (<["uv_path" := AString (UVPath v)]>
            (<["whisperx_env" := AString (WhisperXEnv v)]>
            (<["environment" := AMap
                (<["os" := AString (OS (Environment_ v))]>
                (<["arch" := AString (Arch (Environment_ v))]>
                (<["supports_nvidia_stack" :=
                     ABool (SupportsNvidiaStack (Environment_ v))]>
                (<["supports_mps" := ABool (SupportsMPS (Environment_ v))]>
                (<["default_whisper_device" :=
                     AString (DefaultWhisperDevice (Environment_ v))]>
                 ∅)))))]> ∅))))))))
      end
  end.

End Config.

(** ** pkg/logger: the process-wide logger *)

Module Logger.

Inductive Level : Type :=
| DebugLevel | InfoLevel | WarnLevel | ErrorLevel
| DPanicLevel | PanicLevel | FatalLevel.

(** zapcore numbers the levels from -1 (debug) to 5 (fatal). *)
Definition Level_rank (l : Level) : Z :=
  match l with
  | DebugLevel => -1 | InfoLevel => 0 | WarnLevel => 1 | ErrorLevel => 2
  | DPanicLevel => 3 | PanicLevel => 4 | FatalLevel => 5
  end.

(** [min.Enabled(l)] *)
Definition Level_Enabled (min l : Level) : bool :=
  (Level_rank min <=? Level_rank l)%Z.

(** [type Field = zapcore.Field] *)
Record Field := mkField {
  f_type : FieldType;
  f_key : string;
  f_value : any
}.

Record Entry := mkEntry {
  e_level : Level;
  e_message : string;
  e_fields : list Field;
  e_stacktrace : bool
}.

(** A [*zap.Logger] as [Init] builds it: the console core always, the
    file core when the log file could be opened, stack traces from
    [l_stack] upwards. *)
Record ZapLogger := mkZapLogger {
  l_file : option string;
  l_stack : Level;
  l_callerSkip : nat
}.

(** The package variables [defaultLogger] and [atomicLevel], and what the
    process has written so far. *)
Record State := mkState {
  defaultLogger : option ZapLogger;
  atomicLevel : Level;
  out_stdout : list Entry;
  out_files : list (string * Entry);
  out_stderr : list string
}.

(** How a call ends: it returns, or the goroutine panics, or the process
    exits. *)
Inductive result (A : Type) : Type :=
| Ok (a : A)
| Panic (msg : string)
| Exit (code : Z).
Arguments Ok {A} a.
Arguments Panic {A} msg.
Arguments Exit {A} code.

Definition M (A : Type) : Type := State -> result A * State.

Definition ret {A} (a : A) : M A := fun st => (Ok a, st).

Definition bind {A B} (k : A -> M B) (m : M A) : M B :=
  fun st =>
    match m st with
    | (Ok a, st') => k a st'
    | (Panic msg, st') => (Panic msg, st')
    | (Exit c, st') => (Exit c, st')
    end.

(** stdpp's [x ← m; k] notation for the monad. *)
#[local] Instance M_ret : MRet M := @ret.
#[local] Instance M_bind : MBind M := @bind.

(** A computation that returns, whatever the state it starts in. *)
Definition returns {A} (m : M A) : Prop :=
  ∀ st, ∃ a st', m st = (Ok a, st').

Definition get : M State := fun st => (Ok st, st).
Definition modify (f : State -> State) : M unit := fun st => (Ok tt, f st).

(** A method call through a pointer that may be nil. *)
Definition through {A B} (p : option A) (k : A -> M B) : M B :=
  match p with
  | Some a => k a
  | None => fun st => (Panic "invalid memory address or nil pointer dereference", st)
  end.

Definition set_defaultLogger (l : option ZapLogger) (st : State) : State :=
  {| defaultLogger := l; atomicLevel := atomicLevel st;
     out_stdout := out_stdout st; out_files := out_files st;
     out_stderr := out_stderr st |}.

Definition set_atomicLevel (lv : Level) (st : State) : State :=
  {| defaultLogger := defaultLogger st; atomicLevel := lv;
     out_stdout := out_stdout st; out_files := out_files st;
     out_stderr := out_stderr st |}.

Definition eprint (line : string) (st : State) : State :=
  {| defaultLogger := defaultLogger st; atomicLevel := atomicLevel st;
     out_stdout := out_stdout st; out_files := out_files st;
     out_stderr := out_stderr st ++ [line] |}.

Definition emit (file : option string) (e : Entry) (st : State) : State :=
  {| defaultLogger := defaultLogger st; atomicLevel := atomicLevel st;
     out_stdout := out_stdout st ++ [e];
     out_files :=
       match file with
       | Some p => out_files st ++ [(p, e)]
       | None => out_files st
       end;
     out_stderr := out_stderr st |}.

Definition defaultLogFile : string := "data/logs/scriberr.log".

(** The package at program start: no logger yet, level INFO, nothing
    written. *)
Definition initialState : State :=
  {| defaultLogger := None; atomicLevel := InfoLevel;
     out_stdout := []; out_files := []; out_stderr := [] |}.

(** *** Field constructors (re-exports of zap's) *)

Definition zap_String (key value : string) : Field :=
  mkField StringType key (AString value).

Definition zap_Skip : Field := mkField SkipType "" ANil.

Definition zap_Error (err : string) : Field :=
  mkField ErrorType "error" (AError err).

(** [zap.Any] picks the field type from the dynamic type of the value. *)
Definition zap_Any (key : string) (value : any) : Field :=
  match value with
  | AString _ => mkField StringType key value
  | ABool _ => mkField BoolType key value
  | AInt _ => mkField Int64Type key value
  | ADuration _ => mkField DurationType key value
  | AError _ => mkField ErrorType key value
  | AMap _ | AField _ _ _ | AMarshaler _ | ANil => mkField ReflectType key value
  end.

Definition Any (key : string) (value : any) : Field := zap_Any key value.
Definition Bool (key : string) (value : bool) : Field :=
  mkField BoolType key (ABool value).
Definition Duration (key : string) (value : Z) : Field :=
  mkField DurationType key (ADuration value).
Definition Int (key : string) (value : Z) : Field :=
  mkField Int64Type key (AInt value).
Definition String (key value : string) : Field := zap_String key value.

(** [ErrorField]: a nil error becomes the field that is skipped. *)
Definition ErrorField (err : option string) : Field :=
  match err with
  | None => zap_Skip
  | Some e => zap_Error e
  end.

(** A [Field] stored in an interface value. *)
Definition boxField (f : Field) : any := AField (f_type f) (f_key f) (f_value f).

Definition fieldsToAny (fields : list Field) : list any :=
  match fields with
  | [] => []
  | _ => map boxField fields
  end.

(** The loop of [normalizeFields], started at index [i]: a [Field] is kept,
    a string takes the next argument as its value (or "<missing>" when it
    is the last one), anything else is named after its position. *)
Fixpoint normalizeFields_at (i : nat) (fields : list any) : list Field :=
  match fields with
  | [] => []
  | AField t k v :: rest => mkField t k v :: normalizeFields_at (S i) rest
  | AString k :: [] => [zap_String k "<missing>"]
  | AString k :: v :: rest => zap_Any k v :: normalizeFields_at (S (S i)) rest
  | v :: rest => zap_Any ("arg_" +:+ pretty i) v :: normalizeFields_at (S i) rest
  end.

Definition normalizeFields (fields : list any) : list Field :=
  match fields with
  | [] => []
  | _ => normalizeFields_at 0 fields
  end.

(** *** Encoding of the fields *)

(** The entries of a map in the order of their keys, which is the order in
    which encoding/json goes through a map. *)
Definition key_le {A} (a b : string * A) : Prop := String.leb a.1 b.1 = true.

#[local] Instance key_le_dec {A} (a b : string * A) : Decision (key_le a b).
Proof. unfold key_le. apply _. Defined.

Definition first_panic (outcomes : list (option string)) : option string :=
  default None (head (filter is_Some outcomes)).

(** The panic, if any, that leaves [json.Marshal] on a value: the encoder
    has no code of its own that panics on these values, it calls the
    [MarshalJSON] method of a value that has one, also inside a map or a
    struct, and a panic of that method passes through the encoder. An
    error that the method returns is an error of [json.Marshal], not a
    panic. *)
Fixpoint json_panic (v : any) : option string :=
  match v with
  | AMarshaler (MarshalPanic p) => Some p
  | AMap m =>
      first_panic (snd <$> merge_sort key_le (map_to_list (json_panic <$> m)))
  | AField _ _ v' => json_panic v'
  | _ => None
  end.

(** The method [AddTo] of a field: a reflected value goes through
    [json.Marshal], whose error zap records under the key with the suffix
    Error, and whose panic it does not catch; the other kinds are written
    by zap itself. *)
Definition Field_AddTo (f : Field) : option string :=
  match f_type f with
  | ReflectType => json_panic (f_value f)
  | _ => None
  end.

(** zapcore's [addFields]: the fields in their order, up to the first
    panic. *)
Definition addFields (fields : list Field) : option string :=
  first_panic (Field_AddTo <$> fields).

(** *** The methods of [*zap.Logger] that the package calls *)

(** What follows the write: zap panics at the panic level and exits the
    process at the fatal level; every other level returns. *)
Definition zap_after (lvl : Level) (msg : string) : M unit :=
  match lvl with
  | PanicLevel => fun st => (Panic msg, st)
  | FatalLevel => fun st => (Exit 1, st)
  | _ => mret tt
  end.

(** An entry below the level is dropped before its fields are looked at.
    An enabled entry is encoded by the console core first: a panic of the
    encoding leaves the call before any core has written. *)
Definition zap_log (l : ZapLogger) (lvl : Level) (msg : string)
    (fields : list Field) : M unit :=
  st ← get;
  (if Level_Enabled (atomicLevel st) lvl
   then match addFields fields with
        | Some p => fun st => (Panic p, st)
        | None =>
            modify (emit (l_file l)
                      {| e_level := lvl; e_message := msg; e_fields := fields;
                         e_stacktrace := Level_Enabled (l_stack l) lvl |})
        end
   else mret tt);;
  zap_after lvl msg.

Definition zap_Debug l := zap_log l DebugLevel.
Definition zap_Info l := zap_log l InfoLevel.
Definition zap_Warn l := zap_log l WarnLevel.
Definition zap_Error_ l := zap_log l ErrorLevel.

(** [SetLevel]: the level shared by every core is assigned. *)
Definition SetLevel (level : Level) : M unit := modify (set_atomicLevel level).

(** The function [Level], which reports the current level. *)
Definition CurrentLevel : M Level := st ← get; mret (atomicLevel st).

(** A logger derived by [With]: the cores of its parent and the fields
    that it adds to every entry. *)
Record Zap := mkZap {
  z_core : ZapLogger;
  z_with : list Field
}.

(** The method [With] of a logger: without fields the logger itself;
    otherwise the cores encode the fields at once, so a panic of the
    encoding leaves [With]. *)
Definition zap_With (z : Zap) (fields : list Field) : M Zap :=
  match fields with
  | [] => mret z
  | _ =>
      match addFields fields with
      | Some p => fun st => (Panic p, st)
      | None => mret {| z_core := z_core z; z_with := (z_with z ++ fields)%list |}
      end
  end.

(** An entry written through a derived logger carries the fields of the
    logger, encoded when it was derived, before those of the call. *)
Definition Zap_log (z : Zap) (lvl : Level) (msg : string) (fields : list Field) : M unit :=
  st ← get;
  (if Level_Enabled (atomicLevel st) lvl
   then match addFields fields with
        | Some p => fun st => (Panic p, st)
        | None =>
            modify (emit (l_file (z_core z))
                      {| e_level := lvl; e_message := msg;
                         e_fields := (z_with z ++ fields)%list;
                         e_stacktrace := Level_Enabled (l_stack (z_core z)) lvl |})
        end
   else mret tt);;
  zap_after lvl msg.

(** What a [context.Context] carries: a logger under the package's own
    key, or a value under some other key. *)
Inductive CtxValue : Type :=
| CtxLogger (l : option Zap)
| CtxOther (key : string) (v : any).

(** A context is the chain of its values, innermost first; the background
    context is the empty chain, and [None] is the nil context. *)
Definition Ctx : Type := option (list CtxValue).

Definition context_Background : list CtxValue := [].

(** [ctx.Value(contextKey{})]: the innermost value under the package's key. *)
Fixpoint ctx_loggerValue (vs : list CtxValue) : option (option Zap) :=
  match vs with
  | [] => None
  | CtxLogger l :: _ => Some l
  | CtxOther _ _ :: vs' => ctx_loggerValue vs'
  end.

(** [WithLogger] *)
Definition WithLogger (ctx : Ctx) (logger : option Zap) : Ctx :=
  let ctx := match ctx with
             | None => context_Background
             | Some vs => vs
             end in
  Some (CtxLogger logger :: ctx).

Section Package.

(** The operating system and the library functions the package calls;
    an error result is [Some] of its message. *)
Variable os_Getenv : string -> string.
Variable os_MkdirAll : string -> option string.
Variable os_OpenFile : string -> option string.
Variable filepath_Dir : string -> string.
Variable strings_TrimSpace : string -> string.
Variable strings_ToLower : string -> string.
(** The [Set] method of [zapcore.Level]; [None] when the text names no
    level. *)
Variable Level_Set : string -> option Level.

Definition openLogFile : M (option string) :=
  let path := strings_TrimSpace (os_Getenv "LOG_FILE") in
  let path := if decide (path = "") then defaultLogFile else path in
  match os_MkdirAll (filepath_Dir path) with
  | Some err =>
      modify (eprint ("failed to create log directory " +:+ filepath_Dir path
                        +:+ ": " +:+ err));;
      mret None
  | None =>
      match os_OpenFile path with
      | Some err =>
          modify (eprint ("failed to open log file " +:+ path +:+ ": " +:+ err));;
          mret None
      | None => mret (Some path)
      end
  end.

(** [Init]; the mutex is taken on entry and released on return. *)
Definition Init (level : string) : M unit :=
  parsedLevel ←
    (if decide (level = "") then mret InfoLevel
     else match Level_Set (strings_ToLower level) with
          | None =>
              modify (eprint ("invalid LOG_LEVEL " +:+ level
                                +:+ ", defaulting to INFO"));;
              mret InfoLevel
          | Some l => mret l
          end);
  modify (set_atomicLevel parsedLevel);;
  fileSyncer ← openLogFile;
  modify (set_defaultLogger
            (Some {| l_file := fileSyncer; l_stack := ErrorLevel;
                     l_callerSkip := 1 |})).

Definition Get : M (option ZapLogger) :=
  st ← get;
  (match defaultLogger st with
   | None => Init (os_Getenv "LOG_LEVEL")
   | Some _ => mret tt
   end);;
  st' ← get;
  mret (defaultLogger st').

Definition Debug (msg : string) (fields : list any) : M unit :=
  l ← Get; through l (fun l => zap_Debug l msg (normalizeFields fields)).

Definition Info (msg : string) (fields : list any) : M unit :=
  l ← Get; through l (fun l => zap_Info l msg (normalizeFields fields)).

Definition Warn (msg : string) (fields : list any) : M unit :=
  l ← Get; through l (fun l => zap_Warn l msg (normalizeFields fields)).

Definition Error (msg : string) (fields : list any) : M unit :=
  l ← Get; through l (fun l => zap_Error_ l msg (normalizeFields fields)).

Definition JobStarted (jobID filename model : string)
    (params : gmap string any) : M unit :=
  Info "Transcription started"
    [boxField (String "job_id" jobID);
     boxField (String "file" filename);
     boxField (String "model" model);
     boxField (Any "params" (AMap params))].

Definition JobCompleted (jobID : string) (duration : Z) (result : any) : M unit :=
  Info "Transcription completed"
    [boxField (String "job_id" jobID);
     boxField (Duration "duration" duration);
     boxField (Any "result" result)].

Definition JobFailed (jobID : string) (duration : Z) (err : option string) : M unit :=
  Error "Transcription failed"
    [boxField (String "job_id" jobID);
     boxField (Duration "duration" duration);
     boxField (ErrorField err)].

Definition WorkerOperation (workerID : Z) (jobID operation : string)
    (details : list any) : M unit :=
  let base := fieldsToAny
      [Int "worker_id" workerID;
       String "job_id" jobID;
       String "operation" operation] in
  Debug "Worker operation" (base ++ details).

(** [With]: a child of the global logger. *)
Definition With (fields : list Field) : M (option Zap) :=
  l ← Get; through l (fun l => z ← zap_With (mkZap l []) fields; mret (Some z)).

(** [Startup] *)
Definition Startup (component message : string) (fields : list any) : M unit :=
  let base := [AString "component"; AString component] in
  let all := (base ++ fields)%list in
  Info message all.

(** [AuthEvent] *)
Definition AuthEvent (event username ip : string) (success : bool)
    (details : list any) : M unit :=
  let base := fieldsToAny
      [String "event" event;
       String "username" username;
       String "ip" ip;
       Bool "success" success] in
  let all := (base ++ details)%list in
  if success then Info "User authentication succeeded" all
  else Warn "User authentication failed" all.

(** [FromContext]: the logger of the context, or the global one. *)
Definition FromContext (ctx : Ctx) : M (option Zap) :=
  match ctx with
  | Some vs =>
      match ctx_loggerValue vs with
      | Some (Some logger) => mret (Some logger)
      | _ => l ← Get; mret ((fun l => mkZap l []) <$> l)
      end
  | None => l ← Get; mret ((fun l => mkZap l []) <$> l)
  end.

(** [ContextWith] *)
Definition ContextWith (ctx : Ctx) (fields : list Field) : M Ctx :=
  current ← FromContext ctx;
  through current (fun current =>
    z ← zap_With current fields;
    mret (WithLogger ctx (Some z))).

(** [C] *)
Definition C (ctx : Ctx) : M (option Zap) := FromContext ctx.

End Package.

End Logger.

(** ** internal/web: static routes *)

Module Web.

Local Open Scope Z_scope.

(** [strings.HasPrefix] *)
Fixpoint HasPrefix (s prefix : string) {struct prefix} : bool :=
  match prefix with
  | EmptyString => true
  | String.String b prefix' =>
      match s with
      | EmptyString => false
      | String.String a s' => Ascii.eqb a b && HasPrefix s' prefix'
      end
  end.

(** [strings.Contains]: is [substr] within [s]? *)
Fixpoint Contains (s substr : string) : bool :=
  HasPrefix s substr ||
  match s with
  | EmptyString => false
  | String.String _ s' => Contains s' substr
  end.

Definition StatusOK : Z := 200.
Definition StatusNotFound : Z := 404.

Definition assetsPrefix : string := "/assets".
Definition cacheAssets : string := "public, max-age=31536000, immutable".

Record Request := mkRequest {
  Method : string;
  URLPath : string
}.

(** gin's response writer: the status to send, the headers, the body
    written so far and its size, which is -1 as long as nothing has been
    written. *)
Record ResponseWriter := mkResponseWriter {
  w_status : Z;
  w_size : Z;
  w_header : gmap string string;
  w_body : string
}.

Definition noWritten : Z := -1.

(** A context starts at status 200 with no header and nothing written. *)
Definition newResponseWriter : ResponseWriter :=
  {| w_status := StatusOK; w_size := noWritten; w_header := ∅;
     w_body := EmptyString |}.

(** [w.Written()] *)
Definition Written (w : ResponseWriter) : bool :=
  negb (w_size w =? noWritten).

(** [w.WriteHeader(code)]: the status changes only while the header has
    not gone out. *)
Definition WriteHeader (w : ResponseWriter) (code : Z) : ResponseWriter :=
  if (0 <? code) && negb (w_status w =? code) then
    if Written w then w
    else {| w_status := code; w_size := w_size w; w_header := w_header w;
            w_body := w_body w |}
  else w.

(** [gin.Context] *)
Record Context := mkContext {
  c_Request : Request;
  c_Params : list (string * string);
  c_Writer : ResponseWriter
}.

(** [c.Param(key)]: the value of the first parameter of that name, or the
    empty string. *)
Fixpoint lookupParam (ps : list (string * string)) (key : string) : string :=
  match ps with
  | [] => ""
  | (k, v) :: ps' => if decide (k = key) then v else lookupParam ps' key
  end.

Definition Param (c : Context) (key : string) : string :=
  lookupParam (c_Params c) key.

Definition set_Writer (c : Context) (w : ResponseWriter) : Context :=
  {| c_Request := c_Request c; c_Params := c_Params c; c_Writer := w |}.

(** [c.Status(code)] *)
Definition Status (c : Context) (code : Z) : Context :=
  set_Writer c (WriteHeader (c_Writer c) code).

(** [c.Header(key, value)]: an empty value removes the header. *)
Definition Header (c : Context) (key value : string) : Context :=
  set_Writer c
    {| w_status := w_status (c_Writer c); w_size := w_size (c_Writer c);
       w_header := if decide (value = EmptyString)
                   then delete key (w_header (c_Writer c))
                   else <[key := value]> (w_header (c_Writer c));
       w_body := w_body (c_Writer c) |}.

Section StaticRoutes.

(** [http.StripPrefix(assetsPrefix, GetAssetsHandler())]: the file server
    over the embedded dist/assets directory, whose content is fixed at
    build time. *)
Variable assetsHandler : ResponseWriter -> Request -> ResponseWriter.

(** The closure [serveAsset] of [SetupStaticRoutes]. *)
Definition serveAsset (c : Context) : Context :=
  if Contains (Param c "filepath") ".." then
    Status c StatusNotFound
  else
    let c := Header c "Cache-Control" cacheAssets in
    set_Writer c (assetsHandler (c_Writer c) (c_Request c)).

(** The two routes registered on "/assets/*filepath": a GET or HEAD
    request whose path starts with "/assets/" reaches [serveAsset] on a
    fresh context, with the rest of the path (from its slash on) as the
    [filepath] parameter. *)
Definition assetsRoute (req : Request) : option Context :=
  if (bool_decide (Method req = "GET") || bool_decide (Method req = "HEAD"))
       && HasPrefix (URLPath req) "/assets/"
  then Some (serveAsset
               {| c_Request := req;
                  c_Params := [("filepath",
                                String.substring 7 (String.length (URLPath req) - 7)%nat
                                  (URLPath req))];
                  c_Writer := newResponseWriter |})
  else None.

End StaticRoutes.

(** *** Embedded files, top-level files and the fallback route *)

Definition StatusInternalServerError : Z := 500.

Definition distDir : string := "dist".
Definition cacheTopLevel : string := "public, max-age=86400".
Definition cacheIndex : string := "no-cache".
Definition indexHTMLFilename : string := "index.html".
Definition viteSVGFilename : string := "vite.svg".
Definition logoFilename : string := "scriberr-logo.png".
Definition thumbFilename : string := "scriberr-thumb.png".

(** What reading an embedded file gives: its bytes or an error. *)
Inductive ReadResult : Type :=
| FileData (data : string)
| FileError (err : string).

(** gin's [w.WriteHeaderNow()] and [w.Write(data)]: the first write sends
    the header, and the size counts the bytes written. *)
Definition Write (w : ResponseWriter) (data : string) : ResponseWriter :=
  {| w_status := w_status w;
     w_size := (if Written w then w_size w else 0)
               + Z.of_nat (String.length data);
     w_header := w_header w;
     w_body := w_body w +:+ data |}.

(** gin's [writeContentType]: the type is set unless the header has one. *)
Definition writeContentType (w : ResponseWriter) (value : string) : ResponseWriter :=
  match w_header w !! "Content-Type" with
  | Some _ => w
  | None => {| w_status := w_status w; w_size := w_size w;
               w_header := <["Content-Type" := value]> (w_header w);
               w_body := w_body w |}
  end.

(** gin's [bodyAllowedForStatus] *)
Definition bodyAllowedForStatus (status : Z) : bool :=
  negb (((100 <=? status) && (status <=? 199))
        || (status =? 204) || (status =? 304)).

(** gin's [c.Render(code, r)] for a renderer that writes [body] under
    [contentType]; [c.Data], [c.String] and [c.JSON] are instances. *)
Definition Render (c : Context) (code : Z) (contentType body : string) : Context :=
  let c := Status c code in
  if bodyAllowedForStatus code then
    set_Writer c (Write (writeContentType (c_Writer c) contentType) body)
  else
    let w := writeContentType (c_Writer c) contentType in
    set_Writer c {| w_status := w_status w;
                    w_size := if Written w then w_size w else 0;
                    w_header := w_header w; w_body := w_body w |}.

(** [c.Data(code, contentType, data)] *)
Definition Data (c : Context) (code : Z) (contentType data : string) : Context :=
  Render c code contentType data.

(** [c.String(code, text)] with no format arguments. *)
Definition String_ (c : Context) (code : Z) (text : string) : Context :=
  Render c code "text/plain; charset=utf-8" text.

Section EmbeddedFiles.

(** The logger's collaborators, as in the logger package. *)
Variable os_Getenv : string -> string.
Variable os_MkdirAll : string -> option string.
Variable os_OpenFile : string -> option string.
Variable filepath_Dir : string -> string.
Variable strings_TrimSpace : string -> string.
Variable strings_ToLower : string -> string.
Variable Level_Set : string -> option Logger.Level.

(** [staticFiles.ReadFile]: the embedded dist directory, fixed at build
    time; and the library functions on paths, types and JSON. *)
Variable staticFiles_ReadFile : string -> ReadResult.
Variable path_Join : string -> string -> string.
Variable filepath_Ext : string -> string.
Variable mime_TypeByExtension : string -> string.
Variable json_Marshal : any -> string.

#[local] Existing Instance Logger.M_ret.
#[local] Existing Instance Logger.M_bind.

(** [c.JSON(code, obj)] *)
Definition JSON (c : Context) (code : Z) (obj : any) : Context :=
  Render c code "application/json; charset=utf-8" (json_Marshal obj).

Definition serveEmbeddedFile (c : Context)
    (relPath cacheControl contentTypeOverride : string)
    : Logger.M (bool * Context) :=
  match staticFiles_ReadFile (path_Join distDir relPath) with
  | FileError err =>
      l ← Logger.Get os_Getenv os_MkdirAll os_OpenFile filepath_Dir
            strings_TrimSpace strings_ToLower Level_Set;
      Logger.through l (fun l =>
        Logger.zap_Error_ l "failed to read embedded file"
          [Logger.String "request_path" (URLPath (c_Request c));
           Logger.String "embedded_path" relPath;
           Logger.ErrorField (Some err)]);;
      mret (false, c)
  | FileData data =>
      let contentType :=
        if decide (contentTypeOverride = EmptyString) then
          let byExt := mime_TypeByExtension (filepath_Ext relPath) in
          if decide (byExt = EmptyString) then "application/octet-stream"
          else byExt
        else contentTypeOverride in
      let c := Header c "Content-Type" contentType in
      let c := if decide (cacheControl = EmptyString) then c
               else Header c "Cache-Control" cacheControl in
      if decide (Method (c_Request c) = "HEAD") then
        mret (true, Status c StatusOK)
      else
        mret (true, Data c StatusOK contentType data)
  end.

(** The closure [serveTopLevel(relPath)] of [SetupStaticRoutes]. *)
Definition serveTopLevel (relPath : string) (c : Context) : Logger.M Context :=
  serveEmbeddedFile c relPath cacheTopLevel EmptyString
  ≫= fun r : bool * Context =>
       if fst r then mret (snd r) else mret (Status (snd r) StatusNotFound).

(** The handler given to [router.NoRoute]. *)
Definition noRoute (c : Context) : Logger.M Context :=
  if HasPrefix (URLPath (c_Request c)) "/api" then
    mret (JSON c StatusNotFound
            (AMap {[ "error" := AString "API endpoint not found" ]}))
  else if bool_decide (Method (c_Request c) ≠ "GET")
          && bool_decide (Method (c_Request c) ≠ "HEAD") then
    mret (Status c StatusNotFound)
  else
    serveEmbeddedFile c indexHTMLFilename cacheIndex "text/html; charset=utf-8"
    ≫= fun r : bool * Context =>
         if fst r then mret (snd r)
         else mret (String_ (snd r) StatusInternalServerError
                      "Error loading page").

(** gin's [w.WriteHeaderNow()] *)
Definition WriteHeaderNow (w : ResponseWriter) : ResponseWriter :=
  if Written w then w
  else {| w_status := w_status w; w_size := 0; w_header := w_header w;
          w_body := w_body w |}.

(** gin's [MIMEPlain] and [default404Body]. *)
Definition MIMEPlain : string := "text/plain".
Definition default404Body : string := "404 page not found".

(** gin's [serveError], under which the router runs the handlers of
    [NoRoute]: the status is preset to [code]; when the handlers have
    written nothing and the status is still [code], gin sends its default
    message as plain text; when they have only changed the status, the
    header goes out with it. *)
Definition serveError (handlers : Context -> Logger.M Context) (c : Context)
    (code : Z) (defaultMessage : string) : Logger.M Context :=
  let c := set_Writer c
             {| w_status := code; w_size := w_size (c_Writer c);
                w_header := w_header (c_Writer c);
                w_body := w_body (c_Writer c) |} in
  handlers c
  ≫= fun c : Context =>
       if Written (c_Writer c) then mret c
       else if w_status (c_Writer c) =? code then
         mret (set_Writer c
                 (Write {| w_status := w_status (c_Writer c);
                           w_size := w_size (c_Writer c);
                           w_header := <["Content-Type" := MIMEPlain]>
                                         (w_header (c_Writer c));
                           w_body := w_body (c_Writer c) |}
                    defaultMessage))
       else mret (set_Writer c (WriteHeaderNow (c_Writer c))).

(** What the router does with a request that matches no route. *)
Definition handleNoRoute (c : Context) : Logger.M Context :=
  serveError noRoute c StatusNotFound default404Body.

End EmbeddedFiles.

End Web.

(** ** internal/config: loading the configuration *)

Module ConfigEnv.

Import Stdlib.Strings.Ascii Stdlib.Strings.String.
Local Open Scope list_scope.

(** [strconv.ParseBool]; [None] is the syntax error. *)
Definition ParseBool (str : string) : option bool :=
  if bool_decide (str ∈ ["1"; "t"; "T"; "TRUE"; "true"; "True"]) then Some true
  else if bool_decide (str ∈ ["0"; "f"; "F"; "FALSE"; "false"; "False"])
       then Some false
       else None.

(** *** [strings.TrimSpace] and [hex.EncodeToString], on bytes *)

Definition isAsciiSpace (a : ascii) : bool :=
  bool_decide (nat_of_ascii a ∈ [9; 10; 11; 12; 13; 32]).

(** The two-byte encodings of U+0085 and U+00A0. *)
Definition isSpace2 (a b : ascii) : bool :=
  (nat_of_ascii a =? 194)%nat && bool_decide (nat_of_ascii b ∈ [133; 160]).

(** The three-byte encodings of U+1680, U+2000 to U+200A, U+2028, U+2029,
    U+202F, U+205F and U+3000. *)
Definition isSpace3 (a b c : ascii) : bool :=
  ((nat_of_ascii a =? 225)%nat && (nat_of_ascii b =? 154)%nat && (nat_of_ascii c =? 128)%nat)
  || ((nat_of_ascii a =? 226)%nat && (nat_of_ascii b =? 128)%nat
      && ((128 <=? nat_of_ascii c)%nat && (nat_of_ascii c <=? 138)%nat
          || bool_decide (nat_of_ascii c ∈ [168; 169; 175])))
  || ((nat_of_ascii a =? 226)%nat && (nat_of_ascii b =? 129)%nat && (nat_of_ascii c =? 159)%nat)
  || ((nat_of_ascii a =? 227)%nat && (nat_of_ascii b =? 128)%nat && (nat_of_ascii c =? 128)%nat).

(** Dropping the white space at the front; [backwards] reads the bytes of
    each rune in reverse, for use on the reversed string. *)
Fixpoint trimFront (backwards : bool) (l : list ascii) : list ascii :=
  match l with
  | [] => []
  | a :: l1 =>
      if isAsciiSpace a then trimFront backwards l1
      else match l1 with
           | [] => l
           | b :: l2 =>
               if (if backwards then isSpace2 b a else isSpace2 a b)
               then trimFront backwards l2
               else match l2 with
                    | [] => l
                    | c :: l3 =>
                        if (if backwards then isSpace3 c b a else isSpace3 a b c)
                        then trimFront backwards l3
                        else l
                    end
           end
  end.

Definition TrimSpace (s : string) : string :=
  string_of_list_ascii
    (rev (trimFront true (rev (trimFront false (list_ascii_of_string s))))).

Definition hexDigit (n : nat) : ascii :=
  nth n (list_ascii_of_string "0123456789abcdef") "0"%char.

Definition EncodeToString (src : string) : string :=
  string_of_list_ascii
    (flat_map (fun b => [hexDigit (nat_of_ascii b / 16);
                         hexDigit (nat_of_ascii b mod 16)])
       (list_ascii_of_string src)).

(** *** The process as the package sees it *)

(** The environment variables, the logger package, the files on disk and
    the package variable [environment]. *)
Record World := mkWorld {
  env : string -> string;
  logs : Logger.State;
  files : gmap string string;
  environment : Config.Environment
}.

Definition CM (A : Type) : Type := World -> Logger.result A * World.

Definition cret {A} (a : A) : CM A := fun w => (Logger.Ok a, w).

Definition cbind {A B} (k : A -> CM B) (m : CM A) : CM B :=
  fun w =>
    match m w with
    | (Logger.Ok a, w') => k a w'
    | (Logger.Panic msg, w') => (Logger.Panic msg, w')
    | (Logger.Exit code, w') => (Logger.Exit code, w')
    end.

#[local] Instance CM_ret : MRet CM := @cret.
#[local] Instance CM_bind : MBind CM := @cbind.

Definition set_logs (w : World) (st : Logger.State) : World :=
  {| env := env w; logs := st; files := files w; environment := environment w |}.

Definition set_files (w : World) (fs : gmap string string) : World :=
  {| env := env w; logs := logs w; files := fs; environment := environment w |}.

Definition set_environment (w : World) (e : Config.Environment) : World :=
  {| env := env w; logs := logs w; files := files w; environment := e |}.

Definition set_env (w : World) (e : string -> string) : World :=
  {| env := e; logs := logs w; files := files w; environment := environment w |}.

(** [os.Getenv] *)
Definition os_Getenv (key : string) : CM string :=
  fun w => (Logger.Ok (env w key), w).

(** From a world that meets [pre] the computation returns, with a result
    and a world that meet [post]. *)
Definition ensures {A} (pre : World -> Prop) (m : CM A)
    (post : A -> World -> Prop) : Prop :=
  forall w, pre w -> exists a w', m w = (Logger.Ok a, w') /\ post a w'.

Section Package.

(** The collaborators of the logger that are not the environment. *)
Variable os_MkdirAll : string -> option string.
Variable os_OpenFile : string -> option string.
Variable filepath_Dir : string -> string.
Variable strings_ToLower : string -> string.
Variable Level_Set : string -> option Logger.Level.

(** [runtime.GOOS] and [runtime.GOARCH]. *)
Variable runtime_GOOS : string.
Variable runtime_GOARCH : string.

(** Which files the process may read and write; [crypto/rand.Read] for a
    number of bytes (the bytes, or an error); [exec.LookPath]; and what
    [godotenv.Load] makes of the environment (an error, or the
    environment with the variables of the .env file added). *)
Variable readable : string -> bool.
Variable writable : string -> bool.
Variable rand_Read : nat -> string + string.
Variable exec_LookPath : string -> option string.
Variable godotenv_Load : (string -> string) -> option string * (string -> string).

(** A call into the logger package, which reads the environment of the
    moment. *)
Definition logging (call : (string -> string) -> Logger.M unit) : CM unit :=
  fun w =>
    match call (env w) (logs w) with
    | (r, st) => (r, set_logs w st)
    end.

Definition logger_Debug (msg : string) (fields : list any) : CM unit :=
  logging (fun e => Logger.Debug e os_MkdirAll os_OpenFile filepath_Dir
                      TrimSpace strings_ToLower Level_Set msg fields).

Definition logger_Warn (msg : string) (fields : list any) : CM unit :=
  logging (fun e => Logger.Warn e os_MkdirAll os_OpenFile filepath_Dir
                      TrimSpace strings_ToLower Level_Set msg fields).

(** [os.ReadFile], and [os.WriteFile] with its error dropped. *)
Definition os_ReadFile (path : string) : CM (option string) :=
  fun w => (Logger.Ok (if readable path then files w !! path else None), w).

Definition os_WriteFile_ (path data : string) : CM unit :=
  fun w => (Logger.Ok tt,
            if writable path then set_files w (<[path := data]> (files w)) else w).

(** [os.MkdirAll] with its error dropped: directories are not part of the
    files that the package reads back, so the world stays as it is. *)
Definition os_MkdirAll_ (path : string) : CM unit :=
  fun w => (Logger.Ok tt, w).

(** [getEnv] *)
Definition getEnv (key defaultValue : string) : CM string :=
  value ← os_Getenv key;
  if decide (value ≠ EmptyString) then mret value else mret defaultValue.

(** [getJWTSecret] *)
Definition getJWTSecret : CM string :=
  secret ← os_Getenv "JWT_SECRET";
  if decide (secret ≠ EmptyString) then mret secret
  else
    secretFile ← getEnv "JWT_SECRET_FILE" "data/jwt_secret";
    read ← os_ReadFile secretFile;
    match read with
    | Some (String.String a data) => mret (TrimSpace (String.String a data))
    | _ =>
        match rand_Read 32 with
        | inr err =>
            logger_Warn "Could not generate secure JWT secret, using fallback"
              [AString "error"; AError err];;
            mret "fallback-jwt-secret-please-set-JWT_SECRET-env-var"
        | inl bytes =>
            let secret := EncodeToString bytes in
            os_MkdirAll_ (filepath_Dir secretFile);;
            os_WriteFile_ secretFile secret;;
            logger_Debug "Generated persistent JWT secret"
              [AString "path"; AString secretFile];;
            mret secret
        end
    end.

(** [findUVPath] *)
Definition findUVPath : CM string :=
  uvPath ← os_Getenv "UV_PATH";
  if decide (uvPath ≠ EmptyString) then mret uvPath
  else
    match exec_LookPath "uv" with
    | Some path =>
        logger_Debug "Found UV package manager" [AString "path"; AString path];;
        mret path
    | None =>
        logger_Warn "UV package manager not found in PATH, using fallback"
          [AString "fallback"; AString "uv"];;
        mret "uv"
    end.

(** [detectEnvironment] *)
Definition detectEnvironment : CM Config.Environment :=
  let goos := runtime_GOOS in
  let arch := runtime_GOARCH in
  let supportsNvidia := bool_decide (goos = "linux") && bool_decide (arch = "amd64") in
  let supportsMPS := bool_decide (goos = "darwin") && bool_decide (arch = "arm64") in
  v ← os_Getenv "SCRIBERR_FORCE_NVIDIA";
  let supportsNvidia :=
    if decide (v ≠ EmptyString) then
      match ParseBool v with
      | Some forced => forced
      | None => supportsNvidia
      end
    else supportsNvidia in
  v ← os_Getenv "SCRIBERR_DISABLE_NVIDIA";
  let supportsNvidia :=
    if decide (v ≠ EmptyString) then
      match ParseBool v with
      | Some true => false
      | _ => supportsNvidia
      end
    else supportsNvidia in
  v ← os_Getenv "SCRIBERR_DISABLE_MPS";
  let supportsMPS :=
    if decide (v ≠ EmptyString) then
      match ParseBool v with
      | Some true => false
      | _ => supportsMPS
      end
    else supportsMPS in
  let defaultDevice := if supportsMPS then "mps" else "cpu" in
  override ← os_Getenv "SCRIBERR_DEFAULT_DEVICE";
  defaultDevice ←
    (if decide (override ≠ EmptyString) then
       if bool_decide (strings_ToLower override ∈ ["cpu"; "cuda"; "mps"; "auto"])
       then mret (strings_ToLower override)
       else
         logger_Warn "Ignoring invalid SCRIBERR_DEFAULT_DEVICE"
           [AString "value"; AString override];;
         mret defaultDevice
     else mret defaultDevice);
  mret {| Config.OS := goos; Config.Arch := arch;
          Config.SupportsNvidiaStack := supportsNvidia;
          Config.SupportsMPS := supportsMPS;
          Config.DefaultWhisperDevice := defaultDevice |}.

(** [EnvironmentInfo] *)
Definition EnvironmentInfo : CM Config.Environment :=
  fun w => (Logger.Ok (environment w), w).

(** [Load] *)
Definition Load : CM Config.Config :=
  (fun w =>
     match godotenv_Load (env w) with
     | (Some _, e) =>
         logger_Debug "No .env file found, using system environment variables" []
           (set_env w e)
     | (None, e) => (Logger.Ok tt, set_env w e)
     end);;
  detected ← detectEnvironment;
  (fun w => (Logger.Ok tt, set_environment w detected));;
  port ← getEnv "PORT" "8080";
  host ← getEnv "HOST" "localhost";
  databasePath ← getEnv "DATABASE_PATH" "data/scriberr.db";
  jwtSecret ← getJWTSecret;
  uploadDir ← getEnv "UPLOAD_DIR" "data/uploads";
  uvPath ← findUVPath;
  whisperXEnv ← getEnv "WHISPERX_ENV" "data/whisperx-env";
  current ← EnvironmentInfo;
  mret {| Config.Port := port; Config.Host := host;
          Config.DatabasePath := databasePath;
          Config.JWTSecret := jwtSecret;
          Config.UploadDir := uploadDir;
          Config.UVPath := uvPath;
          Config.WhisperXEnv := whisperXEnv;
          Config.Environment_ := current |}.

End Package.

End ConfigEnv.

(** ** The job execution engine of the design document

    The worker pool, process supervisor, progress tracker, merge
    coordinator and cancellation controller have no Go source here; they
    are written down from sections 3 to 6 of the design document. *)

Module Engine.

Local Close Scope string_scope.

(** Modelled from the spec: the job status of section 3; the engine's own
    sources are not among the files of this development. *)
Inductive Status : Type :=
| Queued | Running | Succeeded | Failed | Killed.

#[global] Instance Status_eq_dec : EqDecision Status.
Proof. solve_decision. Defined.

(** Modelled from the spec: the merge status of section 3. *)
Inductive MergeStatus : Type :=
| NotApplicable | Pending | Merging | Merged | MergeFailed.

(** Modelled from the spec: the job record of section 3 (identifier, input
    references, adapter name, parameters, status, progress percent, time
    stamps, error detail, merge status, transient process handle). *)
Record Job := mkJob {
  job_id : nat;
  job_inputs : list string;
  job_adapter : string;
  job_params : gmap string string;
  job_status : Status;
  job_progress : nat;
  job_started_at : option Z;
  job_completed_at : option Z;
  job_error : option string;
  job_merge_status : MergeStatus;
  job_handle : option nat
}.

Definition set_status (j : Job) (s : Status) : Job :=
  {| job_id := job_id j; job_inputs := job_inputs j;
     job_adapter := job_adapter j; job_params := job_params j;
     job_status := s; job_progress := job_progress j;
     job_started_at := job_started_at j;
     job_completed_at := job_completed_at j; job_error := job_error j;
     job_merge_status := job_merge_status j; job_handle := job_handle j |}.

Definition set_progress (j : Job) (p : nat) : Job :=
  {| job_id := job_id j; job_inputs := job_inputs j;
     job_adapter := job_adapter j; job_params := job_params j;
     job_status := job_status j; job_progress := p;
     job_started_at := job_started_at j;
     job_completed_at := job_completed_at j; job_error := job_error j;
     job_merge_status := job_merge_status j; job_handle := job_handle j |}.

(** *** Process Supervisor and Cancellation Controller (4.3, 4.6) *)

(** Modelled from the spec: what the supervisor knows of a handle. *)
Inductive ProcState : Type :=
| Alive
| Signalled
| Exited (code : Z).

(** Modelled from the spec: the supervisor's [Kill(handle)] of section 4.3:
    the termination signal goes to a live group; an exited or already
    killed handle is a no-op. *)
Definition Supervisor_Kill (h : nat) (procs : gmap nat ProcState) : gmap nat ProcState :=
  match procs !! h with
  | Some Alive => <[h := Signalled]> procs
  | _ => procs
  end.

(** Modelled from the spec: the state the Cancellation Controller works
    on: the job records of the persistence collaborator and the processes
    of the supervisor. *)
Record EngineState := mkEngineState {
  jobs : gmap nat Job;
  procs : gmap nat ProcState
}.

(** Modelled from the spec: the two answers of [Kill(jobID)] in section 6,
    ack or NotRunning. *)
Inductive KillResult : Type :=
| Ack
| NotRunning.

(** Modelled from the spec: [Kill(jobID)] of section 4.6: a job that is not
    Running gives NotRunning and nothing changes; a Running job has the
    supervisor's Kill applied to its active handle, and its record is left
    for the owning worker to resolve. *)
Definition Kill (jobID : nat) (e : EngineState) : KillResult * EngineState :=
  match jobs e !! jobID with
  | None => (NotRunning, e)
  | Some j =>
      match job_status j with
      | Running =>
          (Ack,
           {| jobs := jobs e;
              procs := match job_handle j with
                       | Some h => Supervisor_Kill h (procs e)
                       | None => procs e
                       end |})
      | _ => (NotRunning, e)
      end
  end.

(** *** Progress Tracker (4.4) *)

Section ProgressTracker.

(** The adapter's output-parsing strategy (section 3), of which the design
    document fixes no format: the percent a progress line carries, or
    [None] for a line that is malformed. *)
Variable parse_progress : string -> option nat.

(** Modelled from the spec: one update of section 4.4: it is applied to a
    Running job when it does not lower the progress field and stays within
    0-100, and is dropped otherwise. *)
Definition apply_update (j : Job) (p : nat) : Job :=
  match job_status j with
  | Running =>
      if bool_decide (job_progress j ≤ p ∧ p ≤ 100) then set_progress j p else j
  | _ => j
  end.

(** Modelled from the spec: one line of the stream: a malformed line is
    logged and skipped; the job and the log of skipped lines are the
    state. *)
Definition track_line (st : Job * list string) (line : string) : Job * list string :=
  match parse_progress line with
  | None => (st.1, st.2 ++ [line])
  | Some p => (apply_update st.1 p, st.2)
  end.

(** Modelled from the spec: the whole finite stream, consumed in order. *)
Definition track (j : Job) (lines : list string) : Job * list string :=
  foldl track_line (j, []) lines.

End ProgressTracker.

(** *** Worker Pool: the claim (4.2) *)

(** Modelled from the spec: the persistence collaborator's atomic
    [UpdateJobStatus] of section 6, a compare-and-swap against the current
    status. *)
Definition UpdateJobStatus (jobID : nat) (expected new : Status)
    (js : gmap nat Job) : bool * gmap nat Job :=
  match js !! jobID with
  | None => (false, js)
  | Some j =>
      if decide (job_status j = expected)
      then (true, <[jobID := set_status j new]> js)
      else (false, js)
  end.

(** Modelled from the spec: a worker's claim of section 4.2, the
    transition Queued to Running. *)
Definition claim (jobID : nat) (js : gmap nat Job) : bool * gmap nat Job :=
  UpdateJobStatus jobID Queued Running js.

(** Modelled from the spec: workers racing for one job. Each claim is one
    atomic step, so a race is the list of the workers in the order in which
    their steps take effect; the result pairs each worker with the outcome
    of its claim. *)
Fixpoint race (workers : list nat) (jobID : nat) (js : gmap nat Job)
    : list (nat * bool) * gmap nat Job :=
  match workers with
  | [] => ([], js)
  | w :: ws =>
      let r := claim jobID js in
      let rs := race ws jobID r.2 in
      ((w, r.1) :: rs.1, rs.2)
  end.

(** *** Merge Coordinator (4.5) *)

(** Modelled from the spec: what one constituent track of a multitrack job
    ended with: its declared start offset (in milliseconds), its own status
    and the segments it produced. *)
Record TrackResult := mkTrackResult {
  result_offset : Z;
  result_status : Status;
  result_output : list string
}.

(** Modelled from the spec: a track as the Merge Coordinator orders it,
    with its track index: its position among the inputs of the job. *)
Record Track := mkTrack {
  track_index : nat;
  track_offset : Z;
  track_status : Status;
  track_output : list string
}.

(** Modelled from the spec: the tracks of a multitrack job are its input
    references in order (section 3), numbered from [i]. *)
Fixpoint index_tracks (i : nat) (rs : list TrackResult) : list Track :=
  match rs with
  | [] => []
  | r :: rs' =>
      mkTrack i (result_offset r) (result_status r) (result_output r)
        :: index_tracks (S i) rs'
  end.

(** Modelled from the spec: the order of section 4.5: by start offset, equal
    offsets by track index. *)
Definition track_leb (a b : Track) : bool :=
  (track_offset a <? track_offset b)%Z
  || ((track_offset a =? track_offset b)%Z
      && (track_index a <=? track_index b)%nat).

Definition track_le (a b : Track) : Prop := track_leb a b = true.

#[global] Instance track_le_dec : RelDecision track_le.
Proof. intros a b. unfold track_le. apply _. Defined.

(** Modelled from the spec: strictly earlier in the merge order of section
    4.5. *)
Definition track_lt (a b : Track) : Prop :=
  (track_offset a < track_offset b)%Z
  ∨ (track_offset a = track_offset b ∧ track_index a < track_index b).

(** Modelled from the spec: the merge routine of section 4.5: it runs once
    every track has succeeded, takes all track outputs and orders them. *)
Definition merge_tracks (tracks : list Track) : option (list Track) :=
  if forallb (fun t => bool_decide (track_status t = Succeeded)) tracks
  then Some (merge_sort track_le tracks)
  else None.

(** Modelled from the spec: the merge of a job, from the results of its
    tracks in input order. *)
Definition merge (results : list TrackResult) : option (list Track) :=
  merge_tracks (index_tracks 0 results).

(** Modelled from the spec: the scenario of section 8: tracks A, B, C, all
    succeeded, with start offsets 0 s, 10 s and 10 s. *)
Definition scenario_ABC : list TrackResult :=
  [ mkTrackResult 0 Succeeded ["a"%string];
    mkTrackResult 10000 Succeeded ["b"%string];
    mkTrackResult 10000 Succeeded ["c"%string] ].

(** Modelled from the spec: the one transcript of section 4.5: the segments
    of the tracks, in merge order. *)
Definition transcript (ordered : list Track) : list string :=
  concat (map track_output ordered).

End Engine.

(** ** Sample machines and requests, used to instantiate the properties *)

Module Samples.

Local Open Scope list_scope.

(** A quiet machine: no variable set, every directory and file to be had,
    and a level parser that knows "debug" only. *)
Definition no_env : string → string := fun _ => EmptyString.
Definition all_ok : string → option string := fun _ => None.
Definition dir_of : string → string := fun _ => "data/logs".
Definition same : string → string := fun s => s.
Definition levels : string → option Logger.Level :=
  fun s => if decide (s = "debug") then Some Logger.DebugLevel else None.

(** A logger at INFO on the console alone. *)
Definition console : Logger.ZapLogger := Logger.mkZapLogger None Logger.ErrorLevel 1.
Definition at_info : Logger.State :=
  Logger.mkState (Some console) Logger.InfoLevel [] [] [].

(** An embedded directory with index.html and nothing else. *)
Definition dist : string → Web.ReadResult :=
  fun p => if decide (p = "dist/index.html") then Web.FileData "<html></html>"
           else Web.FileError "file does not exist".
Definition join : string → string → string := fun a b => a +:+ "/" +:+ b.
Definition ext_of : string → string := fun _ => ".html".
Definition mime_of : string → string := fun _ => "text/html; charset=utf-8".
Definition marshal : any → string := fun _ => "{}".

Definition request (method path : string) : Web.Context :=
  Web.mkContext (Web.mkRequest method path) [] Web.newResponseWriter.

(** A process with nothing in its environment and no file on disk. *)
Definition bare : ConfigEnv.World :=
  ConfigEnv.mkWorld no_env Logger.initialState ∅
    (Config.mkEnvironment "linux" "amd64" true false "cpu").

Definition with_env (key value : string) (w : ConfigEnv.World) : ConfigEnv.World :=
  ConfigEnv.set_env w
    (fun k => if decide (k = key) then value else ConfigEnv.env w k).

Definition always (b : bool) : string -> bool := fun _ => b.

End Samples.

(** * Properties *)

(** ** Process-group setup *)

Section SysProcFacts.
Import SysProc.

Lemma set_SysProcAttr_frame cmd a : same_command (set_SysProcAttr cmd a) cmd.
Proof. by repeat split. Qed.

Lemma child_pgid_own_group a parent pid :
  Setpgid a = true → Pgid a = 0%Z → child_pgid (Some a) parent pid = pid.
Proof. intros Hs Hp. unfold child_pgid. by rewrite Hs, Hp. Qed.

(** C1: on the linux and the darwin build, [ConfigureCmdSysProcAttr]
    applied to any command leaves it with a [SysProcAttr] whose [Setpgid]
    is true (every other attribute zero, the rest of the command as it
    was), so that the spawned child is put in a process group of its own,
    named by its own pid. *)
Theorem posix_configure_sets_setpgid (cmd : Cmd) :
  (SysProcAttr_ (Linux.ConfigureCmdSysProcAttr cmd)
     = Some {| Chroot := Chroot zeroSysProcAttr; Setsid := false;
               Setpgid := true; Setctty := false; Noctty := false;
               Foreground := false; Pgid := 0 |}
   ∧ same_command (Linux.ConfigureCmdSysProcAttr cmd) cmd
   ∧ ∀ parent pid,
       child_pgid (SysProcAttr_ (Linux.ConfigureCmdSysProcAttr cmd)) parent pid = pid)
  ∧
  (SysProcAttr_ (Darwin.ConfigureCmdSysProcAttr cmd)
     = Some {| Chroot := Chroot zeroSysProcAttr; Setsid := false;
               Setpgid := true; Setctty := false; Noctty := false;
               Foreground := false; Pgid := 0 |}
   ∧ same_command (Darwin.ConfigureCmdSysProcAttr cmd) cmd
   ∧ ∀ parent pid,
       child_pgid (SysProcAttr_ (Darwin.ConfigureCmdSysProcAttr cmd)) parent pid = pid).
Proof.
  split.
  - unfold Linux.ConfigureCmdSysProcAttr.
    split; [reflexivity|]. split; [apply set_SysProcAttr_frame|].
    intros parent pid. by apply child_pgid_own_group.
  - unfold Darwin.ConfigureCmdSysProcAttr.
    split; [reflexivity|]. split; [apply set_SysProcAttr_frame|].
    intros parent pid. by apply child_pgid_own_group.
Qed.

(** C2: on the windows build, [ConfigureCmdSysProcAttr] returns every
    command exactly as it received it; in particular a command without
    attributes still has none, and its child stays in the process group of
    its parent. *)
Theorem windows_configure_is_noop (cmd : Cmd) :
  Windows.ConfigureCmdSysProcAttr cmd = cmd
  ∧ SysProcAttr_ (Windows.ConfigureCmdSysProcAttr cmd) = SysProcAttr_ cmd
  ∧ ∀ path args env dir parent pid,
      child_pgid
        (SysProcAttr_ (Windows.ConfigureCmdSysProcAttr (mkCmd path args env dir None)))
        parent pid = parent.
Proof. unfold Windows.ConfigureCmdSysProcAttr. by repeat split. Qed.

End SysProcFacts.

(** ** Configuration snapshot *)

(** C10: [Snapshot] on a nil receiver returns the empty map; and on every
    receiver, nil or not, it returns a map and does not panic. *)
Theorem Snapshot_nil_is_empty :
  Config.Snapshot None = Config.Returns ∅
  ∧ ∀ c : option Config.Config, ∃ m, Config.Snapshot c = Config.Returns m.
Proof.
  split; [reflexivity|].
  intros [v|]; simpl; eauto.
Qed.

(** ** Static asset route *)

Section WebFacts.
Import Web.

Lemma HasPrefix_app (s t : string) : HasPrefix (s +:+ t) s = true.
Proof.
  induction s as [|a s IH]; simpl; [done|].
  by rewrite Ascii.eqb_refl, IH.
Qed.

Lemma HasPrefix_split (s p : string) :
  HasPrefix s p = true → ∃ t, s = p +:+ t.
Proof.
  revert s. induction p as [|b p IH]; intros s H; simpl in *.
  - by exists s.
  - destruct s as [|a s]; [done|].
    apply andb_true_iff in H as [Hab Hp].
    apply Ascii.eqb_eq in Hab as ->.
    destruct (IH _ Hp) as [t ->]. by exists t.
Qed.

Lemma Contains_here (s sub : string) :
  HasPrefix s sub = true → Contains s sub = true.
Proof. intros H. destruct s; simpl; by rewrite H. Qed.

(** [Contains] is the substring test. *)
Lemma Contains_spec (s sub : string) :
  Contains s sub = true ↔ ∃ pre post, s = pre +:+ sub +:+ post.
Proof.
  split.
  - induction s as [|a s IH]; simpl; intros H.
    + rewrite orb_false_r in H. apply HasPrefix_split in H as [t Ht].
      exists "", t. done.
    + apply orb_true_iff in H as [H|H].
      * apply HasPrefix_split in H as [t Ht]. by exists "", t.
      * destruct (IH H) as (pre & post & ->).
        by exists (String.String a pre), post.
  - intros (pre & post & ->).
    induction pre as [|a pre IH].
    + change ("" +:+ sub +:+ post) with (sub +:+ post).
      apply Contains_here, HasPrefix_app.
    + change (String.String a pre +:+ sub +:+ post)
        with (String.String a (pre +:+ sub +:+ post)).
      simpl. rewrite IH. apply orb_true_r.
Qed.

End WebFacts.

Section AssetRoute.
Import Web.

Variable assetsHandler : ResponseWriter → Request → ResponseWriter.

Lemma WriteHeader_fresh w code :
  Written w = false → (0 < code)%Z → w_status (WriteHeader w code) = code.
Proof.
  intros Hw Hc. unfold WriteHeader. rewrite Hw.
  destruct (0 <? code)%Z eqn:E0; [|apply Z.ltb_ge in E0; lia].
  destruct (w_status w =? code)%Z eqn:E; simpl; [by apply Z.eqb_eq in E | done].
Qed.

Lemma WriteHeader_frame w code :
  w_body (WriteHeader w code) = w_body w
  ∧ w_header (WriteHeader w code) = w_header w
  ∧ w_size (WriteHeader w code) = w_size w.
Proof. unfold WriteHeader. by repeat case_match. Qed.

(** C9: when the [filepath] parameter of a request under /assets has ".."
    as a substring, [serveAsset] answers 404 Not Found on the response that
    the router hands it (nothing written yet), adds nothing to the body
    and sets no header, and does the same whatever the embedded file
    server would do: the request does not reach it. *)
Theorem serveAsset_blocks_traversal (c : Context) :
  (∃ pre post, Param c "filepath" = pre +:+ ".." +:+ post) →
  Written (c_Writer c) = false →
  w_status (c_Writer (serveAsset assetsHandler c)) = StatusNotFound
  ∧ w_body (c_Writer (serveAsset assetsHandler c)) = w_body (c_Writer c)
  ∧ w_header (c_Writer (serveAsset assetsHandler c)) = w_header (c_Writer c)
  ∧ Written (c_Writer (serveAsset assetsHandler c)) = false
  ∧ ∀ fileServer, serveAsset fileServer c = Status c StatusNotFound.
Proof.
  intros Hsub Hfresh. apply Contains_spec in Hsub.
  unfold serveAsset. rewrite Hsub. simpl.
  destruct (WriteHeader_frame (c_Writer c) StatusNotFound) as (Hb & Hh & Hz).
  split; [by apply WriteHeader_fresh|].
  repeat split; [done..|].
  unfold Written. by rewrite Hz.
Qed.

(** Every GET or HEAD request routed to the assets handler starts on a
    fresh response, so a ".." in the rest of its path gives an empty 404. *)
Lemma assetsRoute_blocks_traversal (req : Request) (c : Context) :
  assetsRoute assetsHandler req = Some c →
  (∃ pre post, Param c "filepath" = pre +:+ ".." +:+ post) →
  c_Writer c = {| w_status := StatusNotFound; w_size := noWritten;
                  w_header := ∅; w_body := EmptyString |}.
Proof.
  unfold assetsRoute. case_match; [|done]. intros [= <-] Hsub.
  apply Contains_spec in Hsub. revert Hsub.
  unfold serveAsset at 1 2. case_match; [done|].
  unfold Param in *. simpl in *. congruence.
Qed.

(** The request of TestAssetsHandlerBlocksTraversal. *)
Example traversal_request_is_404 :
  assetsRoute assetsHandler (mkRequest "GET" "/assets/../index.html")
  = Some {| c_Request := mkRequest "GET" "/assets/../index.html";
            c_Params := [("filepath", "/../index.html")];
            c_Writer := {| w_status := 404; w_size := -1; w_header := ∅;
                           w_body := EmptyString |} |}.
Proof. reflexivity. Qed.

End AssetRoute.

Lemma serveAsset_blocks_traversal_witness :
  let leak := fun (_ : Web.ResponseWriter) (_ : Web.Request) =>
                Web.mkResponseWriter 200 15 ∅ "<!doctype html>" in
  let c := Web.mkContext (Web.mkRequest "GET" "/assets/../index.html")
             [("filepath", "/../index.html")] Web.newResponseWriter in
  ((∃ pre post, Web.Param c "filepath" = pre +:+ ".." +:+ post)
   ∧ Web.Written (Web.c_Writer c) = false)
  ∧ Web.w_status (Web.c_Writer (Web.serveAsset leak c)) = 404%Z
  ∧ Web.w_body (Web.c_Writer (Web.serveAsset leak c)) = EmptyString.
Proof.
  intros leak c.
  assert (Hsub : ∃ pre post, Web.Param c "filepath" = pre +:+ ".." +:+ post)
    by (exists "/", "/index.html"; reflexivity).
  assert (Hfresh : Web.Written (Web.c_Writer c) = false) by reflexivity.
  split; [by split|].
  destruct (serveAsset_blocks_traversal leak c Hsub Hfresh) as (Hs & Hb & _).
  split; [exact Hs | exact Hb].
Defined.

(** ** Logger *)

Section LoggerFacts.
Import Logger.

Variable os_Getenv : string → string.
Variable os_MkdirAll : string → option string.
Variable os_OpenFile : string → option string.
Variable filepath_Dir : string → string.
Variable strings_TrimSpace : string → string.
Variable strings_ToLower : string → string.
Variable Level_Set : string → option Level.

#[local] Existing Instance M_ret.
#[local] Existing Instance M_bind.

Abbreviation openLogFile :=
  (openLogFile os_Getenv os_MkdirAll os_OpenFile filepath_Dir strings_TrimSpace).
Abbreviation Init :=
  (Init os_Getenv os_MkdirAll os_OpenFile filepath_Dir strings_TrimSpace
        strings_ToLower Level_Set).
Abbreviation Get :=
  (Get os_Getenv os_MkdirAll os_OpenFile filepath_Dir strings_TrimSpace
       strings_ToLower Level_Set).

Lemma returns_ret {A} (a : A) : returns (mret a).
Proof. intros st. by exists a, st. Qed.

Lemma returns_bind {A B} (m : M A) (k : A → M B) :
  returns m → (∀ a, returns (k a)) → returns (m ≫= k).
Proof.
  intros Hm Hk st. destruct (Hm st) as (a & st' & E).
  destruct (Hk a st') as (b & st'' & E').
  exists b, st''. unfold mbind, M_bind, bind. by rewrite E.
Qed.

Lemma returns_modify f : returns (modify f).
Proof. intros st. by exists tt, (f st). Qed.

Lemma returns_get : returns get.
Proof. intros st. by exists st, st. Qed.

Lemma openLogFile_returns : returns openLogFile.
Proof.
  unfold Logger.openLogFile.
  destruct (os_MkdirAll _).
  - apply returns_bind; [apply returns_modify | intros; apply returns_ret].
  - destruct (os_OpenFile _).
    + apply returns_bind; [apply returns_modify | intros; apply returns_ret].
    + apply returns_ret.
Qed.

Lemma Init_returns level : returns (Init level).
Proof.
  unfold Logger.Init.
  apply returns_bind.
  { case_decide; [apply returns_ret|].
    destruct (Level_Set _); [apply returns_ret|].
    apply returns_bind; [apply returns_modify | intros; apply returns_ret]. }
  intros lv. apply returns_bind; [apply returns_modify|]. intros _.
  apply returns_bind; [apply openLogFile_returns|]. intros f.
  apply returns_modify.
Qed.

(** [Init] leaves a logger installed. *)
Lemma Init_installs level st a st' :
  Init level st = (Ok a, st') → is_Some (defaultLogger st').
Proof.
  unfold Logger.Init, mbind, M_bind, bind. intros H.
  repeat match type of H with
  | context [match ?m ?s with _ => _ end] =>
      let E := fresh "E" in destruct (m s) as [[?|?|?] ?] eqn:E; try discriminate
  end.
  unfold modify in H. simplify_eq. simpl. eauto.
Qed.

Lemma Get_returns_logger st : ∃ l st', Get st = (Ok (Some l), st').
Proof.
  unfold Logger.Get, mbind, M_bind, bind, get. simpl.
  destruct (defaultLogger st) as [l|] eqn:El.
  - exists l, st. simpl. by rewrite El.
  - destruct (Init_returns (os_Getenv "LOG_LEVEL") st) as ([] & st1 & E).
    rewrite E. destruct (Init_installs _ _ _ _ E) as [l Hl].
    exists l, st1. unfold mret, M_ret, ret. by rewrite Hl.
Qed.

Lemma first_panic_cons o os :
  first_panic (o :: os) = match o with Some p => Some p | None => first_panic os end.
Proof.
  unfold first_panic. destruct o as [p|].
  - by rewrite filter_cons_True by eauto.
  - by rewrite filter_cons_False by (by intros [? ?]).
Qed.

Lemma addFields_cons f fs :
  addFields (f :: fs)
  = match Field_AddTo f with Some p => Some p | None => addFields fs end.
Proof. unfold addFields. rewrite fmap_cons. apply first_panic_cons. Qed.

Lemma addFields_app fs gs :
  addFields (fs ++ gs)%list
  = match addFields fs with Some p => Some p | None => addFields gs end.
Proof.
  induction fs as [|f fs IH]; [done|].
  change ((f :: fs) ++ gs)%list with (f :: (fs ++ gs))%list.
  rewrite !addFields_cons. by destruct (Field_AddTo f).
Qed.

(** A field that [zap.Any] builds is encoded without a panic when its
    value is. *)
Lemma zap_Any_AddTo k v : Field_AddTo (zap_Any k v) = json_panic v.
Proof. by destruct v as [| | | | | | | [] |]. Qed.

Lemma boxed_AddTo t k v :
  Field_AddTo (mkField t k v) = None ∨ Field_AddTo (mkField t k v) = json_panic v.
Proof. unfold Field_AddTo. destruct t; simpl; auto. Qed.

(** Arguments that are encoded without a panic give fields that are. *)
Lemma normalizeFields_at_safe fields :
  Forall (fun v => json_panic v = None) fields →
  ∀ i, addFields (normalizeFields_at i fields) = None.
Proof.
  remember (length fields) as n eqn:Hn. revert fields Hn.
  induction n as [n IH] using lt_wf_ind. intros fields Hn Hsafe i.
  destruct fields as [|a rest]; [done|].
  apply Forall_cons in Hsafe as [Ha Hrest]. simpl in Hn.
  assert (Hkeep : ∀ j, addFields (normalizeFields_at j rest) = None).
  { intros j. apply (IH (length rest)); [lia | done | done]. }
  destruct a as [k|b|z|d|e|m|t k v|m|];
    try (match goal with
         | |- addFields (normalizeFields_at i (?a :: rest)) = None =>
             change (normalizeFields_at i (a :: rest))
               with (zap_Any ("arg_" +:+ pretty i) a :: normalizeFields_at (S i) rest)
         end;
         rewrite addFields_cons, zap_Any_AddTo, Ha; apply Hkeep).
  - destruct rest as [|v rest']; [done|].
    apply Forall_cons in Hrest as [Hv Hrest']. simpl in Hn.
    change (addFields (zap_Any k v :: normalizeFields_at (S (S i)) rest') = None).
    rewrite addFields_cons, zap_Any_AddTo, Hv.
    apply (IH (length rest')); [lia | done | done].
  - change (addFields (mkField t k v :: normalizeFields_at (S i) rest) = None).
    rewrite addFields_cons.
    destruct (boxed_AddTo t k v) as [-> | ->]; [apply Hkeep|].
    simpl in Ha. rewrite Ha. apply Hkeep.
Qed.

Lemma normalizeFields_safe fields :
  Forall (fun v => json_panic v = None) fields →
  addFields (normalizeFields fields) = None.
Proof.
  intros H. destruct fields; [done|]. by apply normalizeFields_at_safe.
Qed.

(** Below the panic level, writing an entry whose fields are encoded
    without a panic returns. *)
Lemma zap_log_returns l lvl msg fields :
  lvl ≠ PanicLevel → lvl ≠ FatalLevel → addFields fields = None →
  ∀ st, ∃ st', zap_log l lvl msg fields st = (Ok tt, st').
Proof.
  intros Hp Hf Hsafe st. unfold zap_log, mbind, M_bind, bind, get. simpl.
  rewrite Hsafe.
  destruct (Level_Enabled (atomicLevel st) lvl); simpl;
    destruct lvl; try done; eauto.
Qed.

Lemma logged_through_Get lvl msg fields :
  lvl ≠ PanicLevel → lvl ≠ FatalLevel → addFields fields = None →
  ∀ st, ∃ st',
    (l ← Get; through l (fun l => zap_log l lvl msg fields)) st = (Ok tt, st').
Proof.
  intros Hp Hf Hsafe st. unfold mbind, M_bind, bind.
  destruct (Get_returns_logger st) as (l & st1 & E). rewrite E. simpl.
  by apply zap_log_returns.
Qed.

Lemma Info_returns msg fields st :
  Forall (fun v => json_panic v = None) fields →
  ∃ st', Info os_Getenv os_MkdirAll os_OpenFile filepath_Dir strings_TrimSpace
           strings_ToLower Level_Set msg fields st = (Ok tt, st').
Proof. intros H. apply logged_through_Get; [done..|]. by apply normalizeFields_safe. Qed.

Lemma Debug_returns msg fields st :
  Forall (fun v => json_panic v = None) fields →
  ∃ st', Debug os_Getenv os_MkdirAll os_OpenFile filepath_Dir strings_TrimSpace
           strings_ToLower Level_Set msg fields st = (Ok tt, st').
Proof. intros H. apply logged_through_Get; [done..|]. by apply normalizeFields_safe. Qed.

Lemma Error_returns msg fields st :
  Forall (fun v => json_panic v = None) fields →
  ∃ st', Error os_Getenv os_MkdirAll os_OpenFile filepath_Dir strings_TrimSpace
           strings_ToLower Level_Set msg fields st = (Ok tt, st').
Proof. intros H. apply logged_through_Get; [done..|]. by apply normalizeFields_safe. Qed.

(** What a log call below the panic level does, from any state: the
    logger is fetched, and set up when there was none; an entry below the
    level is dropped; an enabled entry is written, unless the encoding of
    its fields panics. *)
Lemma logged_through_Get_run lvl msg fields st :
  lvl ≠ PanicLevel → lvl ≠ FatalLevel →
  ∃ l st1,
    Get st = (Ok (Some l), st1)
    ∧ (l ← Get; through l (fun l => zap_log l lvl msg fields)) st
      = if Level_Enabled (atomicLevel st1) lvl
        then match addFields fields with
             | Some p => (Panic p, st1)
             | None =>
                 (Ok tt,
                  emit (l_file l)
                    {| e_level := lvl; e_message := msg; e_fields := fields;
                       e_stacktrace := Level_Enabled (l_stack l) lvl |} st1)
             end
        else (Ok tt, st1).
Proof.
  intros Hp Hf.
  destruct (Get_returns_logger st) as (l & st1 & E).
  exists l, st1. split; [exact E|].
  unfold mbind, M_bind, bind. rewrite E. simpl.
  unfold zap_log, mbind, M_bind, bind, get. simpl.
  destruct (Level_Enabled (atomicLevel st1) lvl); simpl;
    [destruct (addFields fields); simpl|]; by destruct lvl.
Qed.


End LoggerFacts.



(** In a map the encoder goes through the keys in their order, so of two
    values that panic the one under the smaller key is the one that
    does. *)
Example json_panic_in_key_order :
  Logger.json_panic
    (AMap {[ "b" := AMarshaler (MarshalPanic "second");
             "a" := AMap {[ "z" := AMarshaler (MarshalPanic "first") ]};
             "c" := AString "fine" ]})
  = Some "first".
Proof. reflexivity. Qed.

(** With a log directory that cannot be created and a LOG_LEVEL that names
    no level, the first [JobFailed] still returns: the logger is set up
    on the console alone, the two complaints go to stderr, and the entry
    is written at the error level. *)
Example JobFailed_on_broken_filesystem :
  Logger.JobFailed
    (fun k => if decide (k = "LOG_LEVEL") then "loud" else "")
    (fun _ => Some "permission denied") (fun _ => None)
    (fun _ => "data/logs") (fun s => s) (fun s => s) (fun _ => None)
    "job-1" 1500 (Some "exit status 1") Logger.initialState
  = (Logger.Ok tt,
     {| Logger.defaultLogger := Some (Logger.mkZapLogger None Logger.ErrorLevel 1);
        Logger.atomicLevel := Logger.InfoLevel;
        Logger.out_stdout :=
          [ Logger.mkEntry Logger.ErrorLevel "Transcription failed"
              [ Logger.mkField StringType "job_id" (AString "job-1");
                Logger.mkField DurationType "duration" (ADuration 1500);
                Logger.mkField ErrorType "error" (AError "exit status 1") ]
              true ];
        Logger.out_files := [];
        Logger.out_stderr :=
          [ "invalid LOG_LEVEL loud, defaulting to INFO";
            "failed to create log directory data/logs: permission denied" ] |}).
Proof. reflexivity. Qed.

(** At the default level a worker operation, logged at debug level, writes
    nothing, and returns all the same. *)
Example WorkerOperation_below_level :
  Logger.WorkerOperation
    (fun _ => "") (fun _ => None) (fun _ => None)
    (fun _ => "data/logs") (fun s => s) (fun s => s) (fun _ => None)
    3 "job-1" "claim" [AString "attempt"; AInt 2; AInt 9; AString "dangling"]
    Logger.initialState
  = (Logger.Ok tt,
     {| Logger.defaultLogger :=
          Some (Logger.mkZapLogger (Some "data/logs/scriberr.log") Logger.ErrorLevel 1);
        Logger.atomicLevel := Logger.InfoLevel;
        Logger.out_stdout := []; Logger.out_files := []; Logger.out_stderr := [] |}).
Proof. reflexivity. Qed.

(** How the variadic arguments are paired up. *)
Example normalizeFields_pairs :
  Logger.normalizeFields
    [AString "attempt"; AInt 2; AInt 9; AString "dangling"]
  = [ Logger.mkField Int64Type "attempt" (AInt 2);
      Logger.mkField Int64Type "arg_2" (AInt 9);
      Logger.mkField StringType "dangling" (AString "<missing>") ].
Proof. reflexivity. Qed.

(** ** Cancellation *)

Section EngineFacts.
Import Engine.
Local Close Scope string_scope.

(** C5: for a job that is not Running (Queued, or in a terminal state),
    [Kill] returns NotRunning and the whole engine state, job records and
    processes alike, is as before; for a Running job it returns the
    acknowledgement, applies the supervisor's Kill to the job's handle and
    leaves the job records alone. *)
Theorem Kill_not_running_is_noop (e : EngineState) (jobID : nat) (j : Job) :
  jobs e !! jobID = Some j →
  (job_status j ≠ Running → Kill jobID e = (NotRunning, e))
  ∧ (job_status j = Running →
       (Kill jobID e).1 = Ack
       ∧ jobs (Kill jobID e).2 = jobs e
       ∧ ∀ h, job_handle j = Some h →
           procs (Kill jobID e).2 = Supervisor_Kill h (procs e)).
Proof.
  intros Hj. unfold Kill. rewrite Hj. split.
  - intros Hs. by destruct (job_status j).
  - intros ->. simpl. repeat split. by intros h ->.
Qed.

Lemma Kill_not_running_is_noop_witness :
  let j := mkJob 7 ["a.wav"%string] "whisperx"%string ∅ Queued 0 None None None
             NotApplicable None in
  let e := mkEngineState {[ 7 := j ]} ∅ in
  jobs e !! 7 = Some j ∧ Kill 7 e = (NotRunning, e).
Proof.
  intros j e.
  assert (Hj : jobs e !! 7 = Some j) by reflexivity.
  split; [exact Hj|].
  apply (Kill_not_running_is_noop e 7 j Hj). discriminate.
Defined.

(** ** Progress *)

Section ProgressFacts.
Variable parse_progress : string → option nat.

Lemma apply_update_progress j p :
  job_progress j ≤ job_progress (apply_update j p).
Proof.
  unfold apply_update. destruct (job_status j); try done.
  case_bool_decide; simpl; lia.
Qed.

Lemma apply_update_status j p :
  job_status (apply_update j p) = job_status j.
Proof.
  unfold apply_update. destruct (job_status j) eqn:E; try done.
  by case_bool_decide.
Qed.

Lemma track_line_progress st line :
  job_progress st.1 ≤ job_progress (track_line parse_progress st line).1.
Proof.
  unfold track_line. destruct (parse_progress line); simpl; [|done].
  apply apply_update_progress.
Qed.

Lemma track_line_status st line :
  job_status (track_line parse_progress st line).1 = job_status st.1.
Proof.
  unfold track_line. destruct (parse_progress line); simpl; [|done].
  apply apply_update_status.
Qed.

Lemma foldl_track_line_progress lines st :
  job_progress st.1 ≤ job_progress (foldl (track_line parse_progress) st lines).1.
Proof.
  revert st. induction lines as [|l lines IH]; intros st; simpl; [done|].
  etrans; [apply (track_line_progress st l) | apply IH].
Qed.

Lemma foldl_track_line_status lines st :
  job_status (foldl (track_line parse_progress) st lines).1 = job_status st.1.
Proof.
  revert st. induction lines as [|l lines IH]; intros st; simpl; [done|].
  rewrite IH. apply track_line_status.
Qed.

(** C7: for a Running job the progress field never goes down: not by one
    update, not over a stream of lines, and not from one point of the
    stream to a later one; the job stays Running throughout; and a
    malformed line leaves the job as it was and is only noted in the log
    of skipped lines. *)
Theorem progress_is_monotone (j : Job) (lines more : list string) :
  job_status j = Running →
  (∀ p, job_progress j ≤ job_progress (apply_update j p))
  ∧ job_progress j ≤ job_progress (track parse_progress j lines).1
  ∧ job_progress (track parse_progress j lines).1
      ≤ job_progress (track parse_progress j (lines ++ more)).1
  ∧ job_status (track parse_progress j (lines ++ more)).1 = Running
  ∧ ∀ line log, parse_progress line = None →
      track_line parse_progress (j, log) line = (j, log ++ [line]).
Proof.
  intros Hrun. split; [intros p; apply apply_update_progress|].
  split; [apply (foldl_track_line_progress lines (j, []))|].
  split; [unfold track; rewrite foldl_app; apply foldl_track_line_progress|].
  split; [unfold track; by rewrite foldl_track_line_status|].
  intros line log Hbad. unfold track_line. by rewrite Hbad.
Qed.

End ProgressFacts.

Lemma progress_is_monotone_witness :
  let parse := fun s : string =>
    if decide (s = "50%"%string) then Some 50
    else if decide (s = "20%"%string) then Some 20 else None in
  let j := mkJob 7 ["a.wav"%string] "whisperx"%string ∅ Running 10 None None None
             NotApplicable (Some 4242) in
  job_status j = Running
  ∧ job_progress (track parse j ["50%"%string; "garbage"%string]).1
      ≤ job_progress
          (track parse j (["50%"%string; "garbage"%string] ++ ["20%"%string])).1.
Proof.
  intros parse j.
  assert (Hrun : job_status j = Running) by reflexivity.
  split; [exact Hrun|].
  exact (proj1 (proj2 (proj2
    (progress_is_monotone parse j ["50%"%string; "garbage"%string]
       ["20%"%string] Hrun)))).
Defined.

(** The stream "50%", "garbage", "20%" on a job at 10: the job ends at 50,
    and only the malformed line is in the log. *)
Example track_skips_and_keeps :
  let parse := fun s : string =>
    if decide (s = "50%"%string) then Some 50
    else if decide (s = "20%"%string) then Some 20 else None in
  let j := mkJob 7 ["a.wav"%string] "whisperx"%string ∅ Running 10 None None None
             NotApplicable (Some 4242) in
  track parse j ["50%"%string; "garbage"%string; "20%"%string]
  = (set_progress j 50, ["garbage"%string]).
Proof. reflexivity. Qed.

(** ** Claim *)

Lemma claim_fails_unless_queued jobID js j :
  js !! jobID = Some j → job_status j ≠ Queued → claim jobID js = (false, js).
Proof.
  intros Hj Hs. unfold claim, UpdateJobStatus. rewrite Hj.
  by case_decide.
Qed.

Lemma claim_wins_when_queued jobID js j :
  js !! jobID = Some j → job_status j = Queued →
  claim jobID js = (true, <[jobID := set_status j Running]> js).
Proof.
  intros Hj Hs. unfold claim, UpdateJobStatus. rewrite Hj.
  by case_decide.
Qed.

(** Once the job is no longer Queued every later claim fails and the
    records stay put. *)
Lemma race_all_lose workers jobID js j :
  js !! jobID = Some j → job_status j ≠ Queued →
  race workers jobID js = (map (fun w => (w, false)) workers, js).
Proof.
  intros Hj Hs. induction workers as [|w ws IH]; simpl; [done|].
  rewrite (claim_fails_unless_queued _ _ _ Hj Hs). simpl. by rewrite IH.
Qed.

(** The number of workers whose claim succeeded. *)
Lemma winners_of_losers (ws : list nat) :
  filter (fun r : nat * bool => r.2 = true) (map (fun w => (w, false)) ws) = [].
Proof.
  induction ws as [|w ws IH]; simpl; [done|].
  rewrite filter_cons_False; [done | simpl; discriminate].
Qed.

(** C8: when any number of workers (at least one) race to claim one Queued
    job, in whatever order their compare-and-swap steps take effect, the
    first step wins and every other one fails: exactly one claim
    succeeds, the job ends up Running, and no other record is touched. *)
Theorem exactly_one_claim_wins (js : gmap nat Job) (jobID : nat) (j : Job)
    (workers : list nat) :
  js !! jobID = Some j → job_status j = Queued → workers ≠ [] →
  ∃ winner losers,
    workers = winner :: losers
    ∧ (race workers jobID js).1
        = (winner, true) :: map (fun w => (w, false)) losers
    ∧ filter (fun r : nat * bool => r.2 = true) (race workers jobID js).1
        = [(winner, true)]
    ∧ (race workers jobID js).2 = <[jobID := set_status j Running]> js
    ∧ job_status <$> ((race workers jobID js).2 !! jobID) = Some Running.
Proof.
  intros Hj Hq Hne. destruct workers as [|w ws]; [done|].
  exists w, ws. split; [done|].
  assert (Hrace : race (w :: ws) jobID js
            = ((w, true) :: map (fun w => (w, false)) ws,
               <[jobID := set_status j Running]> js)).
  { simpl. rewrite (claim_wins_when_queued _ _ _ Hj Hq). simpl.
    rewrite (race_all_lose ws jobID _ (set_status j Running));
      [done | by rewrite lookup_insert_eq | done]. }
  rewrite Hrace. simpl. split; [done|]. split.
  - rewrite filter_cons_True by done. by rewrite winners_of_losers.
  - split; [done|]. by rewrite lookup_insert_eq.
Qed.

Lemma exactly_one_claim_wins_witness :
  let j := mkJob 7 ["a.wav"%string] "whisperx"%string ∅ Queued 0 None None None
             NotApplicable None in
  let js : gmap nat Job := {[ 7 := j ]} in
  (js !! 7 = Some j ∧ job_status j = Queued ∧ [3; 1; 2] ≠ [])
  ∧ ∃ winner losers,
      [3; 1; 2] = winner :: losers
      ∧ (race [3; 1; 2] 7 js).1 = (winner, true) :: map (fun w => (w, false)) losers.
Proof.
  intros j js.
  assert (Hj : js !! 7 = Some j) by reflexivity.
  assert (Hq : job_status j = Queued) by reflexivity.
  assert (Hne : [3; 1; 2] ≠ []) by discriminate.
  split; [by repeat split|].
  destruct (exactly_one_claim_wins js 7 j [3; 1; 2] Hj Hq Hne)
    as (winner & losers & Hw & Hr & _).
  by exists winner, losers.
Defined.

(** ** Merge *)

Lemma track_le_spec a b :
  track_le a b ↔
  (track_offset a < track_offset b)%Z
  ∨ (track_offset a = track_offset b ∧ track_index a ≤ track_index b).
Proof.
  unfold track_le, track_leb.
  rewrite orb_true_iff, andb_true_iff, Z.ltb_lt, Z.eqb_eq, Nat.leb_le.
  done.
Qed.

#[local] Instance track_le_total : Total track_le.
Proof. intros a b. rewrite !track_le_spec. lia. Qed.

#[local] Instance track_le_trans : Transitive track_le.
Proof. intros a b c. rewrite !track_le_spec. lia. Qed.

Lemma index_tracks_indices i rs :
  map track_index (index_tracks i rs) = seq i (length rs).
Proof.
  revert i. induction rs as [|r rs IH]; intros i; simpl; [done|].
  by rewrite IH.
Qed.

Lemma index_tracks_succeeded i rs :
  Forall (fun r => result_status r = Succeeded) rs →
  forallb (fun t => bool_decide (track_status t = Succeeded)) (index_tracks i rs) = true.
Proof.
  intros H. revert i. induction H as [|r rs Hr _ IH]; intros i; simpl; [done|].
  rewrite IH, andb_true_r. by apply bool_decide_eq_true.
Qed.

(** In a strongly sorted list the relation holds between any earlier and
    any later position. *)
Lemma StronglySorted_lookup {A} (R : relation A) (l : list A) i j a b :
  StronglySorted R l → i < j → l !! i = Some a → l !! j = Some b → R a b.
Proof.
  intros Hs. revert i j. induction Hs as [|x l Hs IH Hx]; intros i j Hij Ha Hb.
  - done.
  - destruct j as [|j]; [lia|]. destruct i as [|i]; simpl in *.
    + simplify_eq. rewrite Forall_forall in Hx. apply Hx.
      by eapply list_elem_of_lookup_2.
    + apply (IH i j); [lia|done..].
Qed.

(** Tracks with distinct indices: the index names the track. *)
Lemma same_index_same_track (l : list Track) a b :
  NoDup (map track_index l) → a ∈ l → b ∈ l →
  track_index a = track_index b → a = b.
Proof.
  intros Hnd Ha Hb Hidx.
  apply list_elem_of_lookup in Ha as [i Hi], Hb as [k Hk].
  assert (i = k) as ->.
  { eapply NoDup_lookup; [exact Hnd| |].
    - change (map track_index l) with (track_index <$> l).
      rewrite list_lookup_fmap, Hi. reflexivity.
    - change (map track_index l) with (track_index <$> l).
      rewrite list_lookup_fmap, Hk. simpl. by rewrite Hidx. }
  congruence.
Qed.

(** The tracks of a job: the result at position [k], numbered [i + k]. *)
Lemma index_tracks_lookup rs i k :
  index_tracks i rs !! k
  = (fun r => mkTrack (i + k) (result_offset r) (result_status r) (result_output r))
      <$> rs !! k.
Proof.
  revert i k. induction rs as [|r rs IH]; intros i k; [done|].
  destruct k as [|k]; simpl.
  - by rewrite Nat.add_0_r.
  - rewrite IH. by replace (S i + k) with (i + S k) by lia.
Qed.

Lemma index_tracks_imap rs :
  index_tracks 0 rs
  = imap (fun i r => mkTrack i (result_offset r) (result_status r) (result_output r)) rs.
Proof.
  apply list_eq. intros k.
  by rewrite index_tracks_lookup, list_lookup_imap.
Qed.

Lemma index_tracks_outputs i rs :
  map track_output (index_tracks i rs) = map result_output rs.
Proof.
  revert i. induction rs as [|r rs IH]; intros i; simpl; [done|].
  by rewrite IH.
Qed.

Lemma concat_Permutation {A} (l k : list (list A)) :
  l ≡ₚ k → concat l ≡ₚ concat k.
Proof.
  induction 1 as [|x l k _ IH|x y l|l k m _ IH1 _ IH2]; simpl.
  - done.
  - by rewrite IH.
  - rewrite !app_assoc. f_equiv. apply Permutation_app_comm.
  - by etrans.
Qed.

(** Two positions of a list, one before the other, cut it in three. *)
Lemma lookup_two_split {A} (l : list A) p q a b :
  p < q → l !! p = Some a → l !! q = Some b →
  ∃ l1 l2 l3, l = l1 ++ a :: l2 ++ b :: l3.
Proof.
  intros Hpq Ha Hb.
  exists (take p l), (take (q - S p) (drop (S p) l)), (drop (S q) l).
  rewrite <- (take_drop_middle l p a Ha) at 1. f_equal. f_equal.
  assert (Hb' : drop (S p) l !! (q - S p) = Some b).
  { rewrite lookup_drop. by replace (S p + (q - S p)) with q by lia. }
  rewrite <- (take_drop_middle (drop (S p) l) (q - S p) b Hb') at 1.
  f_equal. f_equal. rewrite drop_drop. f_equal. lia.
Qed.

(** C6: when every track of a multitrack job has succeeded, the merge
    returns one transcript order. It holds every track output exactly
    once, each with the start offset that was declared for it and with
    its position among the inputs as track index. A track whose declared
    offset is smaller, or is equal with a smaller index, stands at an
    earlier position, and its segments come earlier in the transcript;
    between any two positions the earlier track is strictly earlier by
    offset, then index. The transcript is made of the segments of the
    tracks and of nothing else, and the order is the only sorted
    arrangement of the tracks, so offsets and indices alone fix it. *)
Theorem merge_orders_by_offset_then_index (results : list TrackResult) :
  Forall (fun r => result_status r = Succeeded) results →
  ∃ ordered,
    merge results = Some ordered
    ∧ ordered ≡ₚ imap (fun i r => mkTrack i (result_offset r) Succeeded
                                    (result_output r)) results
    ∧ (∀ i j ri rj,
         results !! i = Some ri → results !! j = Some rj →
         (result_offset ri < result_offset rj)%Z
         ∨ (result_offset ri = result_offset rj ∧ i < j) →
         (∃ p q, p < q
            ∧ ordered !! p = Some (mkTrack i (result_offset ri) Succeeded
                                     (result_output ri))
            ∧ ordered !! q = Some (mkTrack j (result_offset rj) Succeeded
                                     (result_output rj)))
         ∧ ∃ before between after,
             transcript ordered
             = before ++ result_output ri ++ between ++ result_output rj ++ after)
    ∧ (∀ p q a b, p < q → ordered !! p = Some a → ordered !! q = Some b →
         track_lt a b)
    ∧ transcript ordered ≡ₚ concat (map result_output results)
    ∧ (∀ other,
         other ≡ₚ imap (fun i r => mkTrack i (result_offset r) Succeeded
                                     (result_output r)) results →
         StronglySorted track_le other → other = ordered).
Proof.
  intros Hok.
  assert (Hin : index_tracks 0 results
                = imap (fun i r => mkTrack i (result_offset r) Succeeded
                                     (result_output r)) results).
  { rewrite index_tracks_imap. apply list_eq. intros k.
    rewrite !list_lookup_imap. destruct (results !! k) as [r|] eqn:Hr; [|done].
    simpl. rewrite Forall_lookup in Hok. by rewrite (Hok k r Hr). }
  exists (merge_sort track_le (index_tracks 0 results)).
  assert (Hperm : merge_sort track_le (index_tracks 0 results)
                    ≡ₚ index_tracks 0 results)
    by apply merge_sort_Permutation.
  assert (Hsorted : StronglySorted track_le
                      (merge_sort track_le (index_tracks 0 results)))
    by apply (StronglySorted_merge_sort track_le).
  assert (Hnd : NoDup (map track_index (index_tracks 0 results))).
  { rewrite index_tracks_indices. apply NoDup_seq. }
  assert (Hnd' : NoDup (map track_index
                          (merge_sort track_le (index_tracks 0 results)))).
  { change (NoDup (track_index <$> merge_sort track_le (index_tracks 0 results))).
    by rewrite Hperm. }
  assert (Hlt : ∀ p q a b, p < q →
            merge_sort track_le (index_tracks 0 results) !! p = Some a →
            merge_sort track_le (index_tracks 0 results) !! q = Some b →
            track_lt a b).
  { intros i j a b Hij Ha Hb.
    pose proof (StronglySorted_lookup _ _ _ _ _ _ Hsorted Hij Ha Hb) as Hle.
    apply track_le_spec in Hle.
    assert (track_index a ≠ track_index b).
    { intros Heq.
      assert (i = j); [|lia].
      eapply NoDup_lookup; [exact Hnd'| |].
      - change (map track_index ?l) with (track_index <$> l).
        rewrite list_lookup_fmap, Ha. reflexivity.
      - change (map track_index ?l) with (track_index <$> l).
        rewrite list_lookup_fmap, Hb. simpl. by rewrite Heq. }
    unfold track_lt. lia. }
  split.
  { unfold merge, merge_tracks. by rewrite index_tracks_succeeded. }
  split; [by rewrite <- Hin|]. split; [|split; [exact Hlt|split]].
  - intros i j ri rj Hi Hj Hearlier.
    set (a := mkTrack i (result_offset ri) Succeeded (result_output ri)).
    set (b := mkTrack j (result_offset rj) Succeeded (result_output rj)).
    assert (Ha : a ∈ merge_sort track_le (index_tracks 0 results)).
    { rewrite Hperm, Hin.
      by apply (elem_of_lookup_imap_2
                  (fun i r => mkTrack i (result_offset r) Succeeded (result_output r))
                  results ri i). }
    assert (Hb : b ∈ merge_sort track_le (index_tracks 0 results)).
    { rewrite Hperm, Hin.
      by apply (elem_of_lookup_imap_2
                  (fun i r => mkTrack i (result_offset r) Succeeded (result_output r))
                  results rj j). }
    apply list_elem_of_lookup in Ha as [p Hp], Hb as [q Hq].
    assert (Hpq : p < q).
    { destruct (Nat.lt_trichotomy p q) as [?|[->|Hqp]]; [done| |].
      - rewrite Hp in Hq. injection Hq as Hi' Ho'. lia.
      - pose proof (Hlt q p b a Hqp Hq Hp) as Hba.
        unfold track_lt in Hba. simpl in Hba. lia. }
    split; [by exists p, q|].
    destruct (lookup_two_split _ p q a b Hpq Hp Hq) as (l1 & l2 & l3 & ->).
    exists (transcript l1), (transcript l2), (transcript l3).
    unfold transcript. rewrite map_app, concat_app. simpl.
    by rewrite map_app, concat_app.
  - unfold transcript. rewrite <- (index_tracks_outputs 0 results).
    apply concat_Permutation.
    change (track_output <$> merge_sort track_le (index_tracks 0 results)
              ≡ₚ track_output <$> index_tracks 0 results).
    by rewrite Hperm.
  - intros other Hother Hs. rewrite <- Hin in Hother.
    apply (StronglySorted_unique_strong track_le); [|done..|by rewrite Hperm].
    intros x1 x2 Hx1 Hx2 H12 H21.
    apply (same_index_same_track (index_tracks 0 results)); [done| | |].
    + by rewrite <- Hother.
    + by rewrite <- Hperm.
    + apply track_le_spec in H12, H21. lia.
Qed.

Lemma merge_orders_by_offset_then_index_witness :
  Forall (fun r => result_status r = Succeeded) scenario_ABC
  ∧ ∃ ordered,
      merge scenario_ABC = Some ordered
      ∧ (∃ p q, p < q
           ∧ ordered !! p = Some (mkTrack 1 10000 Succeeded ["b"%string])
           ∧ ordered !! q = Some (mkTrack 2 10000 Succeeded ["c"%string]))
      ∧ ∃ before between after,
          transcript ordered
          = before ++ ["b"%string] ++ between ++ ["c"%string] ++ after.
Proof.
  assert (Hok : Forall (fun r => result_status r = Succeeded) scenario_ABC)
    by (repeat constructor).
  split; [exact Hok|].
  destruct (merge_orders_by_offset_then_index scenario_ABC Hok)
    as (ordered & Hm & _ & Horder & _).
  exists ordered. split; [exact Hm|].
  apply (Horder 1 2 (mkTrackResult 10000 Succeeded ["b"%string])
           (mkTrackResult 10000 Succeeded ["c"%string]));
    [reflexivity | reflexivity | right; simpl; lia].
Defined.

(** C comes after B, and the order does not depend on the order in which
    the track outputs arrive. *)
Example merge_scenario_ABC :
  merge scenario_ABC
  = Some [ mkTrack 0 0 Succeeded ["a"%string];
           mkTrack 1 10000 Succeeded ["b"%string];
           mkTrack 2 10000 Succeeded ["c"%string] ]
  ∧ merge_tracks [ mkTrack 2 10000 Succeeded ["c"%string];
                   mkTrack 1 10000 Succeeded ["b"%string];
                   mkTrack 0 0 Succeeded ["a"%string] ]
    = merge scenario_ABC
  ∧ (transcript <$> merge scenario_ABC) = Some ["a"%string; "b"%string; "c"%string].
Proof. by vm_compute. Qed.

End EngineFacts.

(** * Further properties of the sources *)

(** ** Logger: the variadic arguments *)

Section NormalizeFacts.
Import Logger.
Local Close Scope string_scope.

Lemma unbox_boxField f : mkField (f_type f) (f_key f) (f_value f) = f.
Proof. by destruct f. Qed.

Lemma normalizeFields_at_fields fs i rest :
  normalizeFields_at i (map boxField fs ++ rest)
  = fs ++ normalizeFields_at (i + length fs) rest.
Proof.
  revert i. induction fs as [|f fs IH]; intros i; simpl.
  - by rewrite Nat.add_0_r.
  - rewrite IH, unbox_boxField.
    by replace (S i + length fs) with (i + S (length fs)) by lia.
Qed.

Lemma normalizeFields_at_nil_iff i fs : normalizeFields_at i fs = [] ↔ fs = [].
Proof.
  split; [|by intros ->].
  destruct fs as [|[] [|? ?]]; simpl; done.
Qed.

Lemma normalizeFields_fields_details (fs : list Field) (rest : list any) :
  normalizeFields (fieldsToAny fs ++ rest)
  = fs ++ normalizeFields_at (length fs) rest.
Proof.
  destruct fs as [|f fs].
  - simpl. by destruct rest.
  - unfold fieldsToAny, normalizeFields.
    change (map boxField (f :: fs) ++ rest)
      with (boxField f :: (map boxField fs ++ rest)).
    cbv iota. change (boxField f :: (map boxField fs ++ rest))
      with (map boxField (f :: fs) ++ rest).
    by rewrite normalizeFields_at_fields.
Qed.

(** X1: fields built with the field constructors pass through
    [normalizeFields] untouched and in order, and the loose arguments that
    follow them are normalised on their own, numbered from the position
    at which they start. *)
Theorem normalizeFields_keeps_fields (fs : list Field) (details : list any) :
  normalizeFields (fieldsToAny fs ++ details)
  = fs ++ normalizeFields_at (length fs) details
  ∧ normalizeFields (fieldsToAny fs) = fs.
Proof.
  split; [apply normalizeFields_fields_details|].
  pose proof (normalizeFields_fields_details fs []) as H.
  rewrite !app_nil_r in H. exact H.
Qed.

Lemma normalizeFields_at_pairs (kvs : list (string * any)) i :
  normalizeFields_at i (flat_map (fun kv => [AString kv.1; kv.2]) kvs)
  = map (fun kv => zap_Any kv.1 kv.2) kvs.
Proof.
  revert i. induction kvs as [|[k v] kvs IH]; intros i; simpl; [done|].
  by rewrite IH.
Qed.

(** X2: arguments given as key, value, key, value, ... become one field
    per pair, the key naming the value, also when the value is itself a
    string. *)
Theorem normalizeFields_key_value_pairs (kvs : list (string * any)) :
  normalizeFields (flat_map (fun kv => [AString kv.1; kv.2]) kvs)
  = map (fun kv => zap_Any kv.1 kv.2) kvs.
Proof.
  destruct kvs as [|[k v] kvs]; [done|].
  unfold normalizeFields.
  change (flat_map (fun kv => [AString kv.1; kv.2]) ((k, v) :: kvs))
    with (AString k :: v :: flat_map (fun kv => [AString kv.1; kv.2]) kvs).
  cbv iota.
  change (AString k :: v :: flat_map (fun kv => [AString kv.1; kv.2]) kvs)
    with (flat_map (fun kv : string * any => [AString kv.1; kv.2]) ((k, v) :: kvs)).
  apply normalizeFields_at_pairs.
Qed.

Lemma normalizeFields_at_length n :
  ∀ fs i, length fs ≤ n →
    length (normalizeFields_at i fs) ≤ length fs
    ∧ length fs ≤ 2 * length (normalizeFields_at i fs).
Proof.
  induction n as [|n IH]; intros fs i Hn.
  - destruct fs; simpl in *; [lia|lia].
  - destruct fs as [|a fs]; [simpl; lia|].
    assert (Hone : ∀ j,
              length (normalizeFields_at j fs) ≤ length fs
              ∧ length fs ≤ 2 * length (normalizeFields_at j fs)).
    { intros j. apply IH. simpl in Hn. lia. }
    destruct a; simpl;
      try (specialize (Hone (S i)); lia).
    destruct fs as [|v fs]; [simpl; lia|].
    assert (Htwo : length (normalizeFields_at (S (S i)) fs) ≤ length fs
                   ∧ length fs ≤ 2 * length (normalizeFields_at (S (S i)) fs)).
    { apply IH. simpl in Hn. lia. }
    simpl. lia.
Qed.

(** The arguments split into groups, one for each field and in the order
    of the fields: a [Field] alone, a key with its value, a last key
    alone, or a loose value alone. *)
Lemma normalizeFields_at_groups n :
  ∀ fs i, length fs ≤ n →
    ∃ groups,
      concat groups = fs
      ∧ Forall2 (fun g f =>
                   g = [boxField f]
                   ∨ (∃ k v, g = [AString k; v] ∧ f = zap_Any k v)
                   ∨ (∃ k, g = [AString k] ∧ f = zap_String k "<missing>")
                   ∨ (∃ k v, g = [v] ∧ f = zap_Any k v))
          groups (normalizeFields_at i fs).
Proof.
  induction n as [|n IH]; intros fs i Hn.
  - destruct fs; [|simpl in Hn; lia]. exists []. by split; [|constructor].
  - destruct fs as [|a fs]; [exists []; by split; [|constructor]|].
    simpl in Hn.
    assert (Hone : ∀ v,
              normalizeFields_at i (v :: fs)
              = zap_Any ("arg_" +:+ pretty i) v :: normalizeFields_at (S i) fs →
              ∃ groups,
                concat groups = v :: fs
                ∧ Forall2 (fun g f =>
                     g = [boxField f]
                     ∨ (∃ k v, g = [AString k; v] ∧ f = zap_Any k v)
                     ∨ (∃ k, g = [AString k] ∧ f = zap_String k "<missing>")
                     ∨ (∃ k v, g = [v] ∧ f = zap_Any k v))
                    groups (normalizeFields_at i (v :: fs))).
    { intros v ->. destruct (IH fs (S i)) as (groups & Hc & Hg); [lia|].
      exists ([v] :: groups). split; [simpl; by rewrite Hc|].
      constructor; [|done]. right; right; right. by eexists _, _. }
    destruct a as [k|b|z|d|e|m|t k v|m|]; try (by apply Hone).
    + destruct fs as [|v fs].
      * exists [[AString k]]. split; [done|].
        constructor; [|constructor]. right; right; left. by exists k.
      * destruct (IH fs (S (S i))) as (groups & Hc & Hg); [simpl in Hn; lia|].
        exists ([AString k; v] :: groups). split; [simpl; by rewrite Hc|].
        constructor; [|done]. right; left. by exists k, v.
    + destruct (IH fs (S i)) as (groups & Hc & Hg); [lia|].
      exists ([AField t k v] :: groups). split; [simpl; by rewrite Hc|].
      constructor; [|done]. by left.
Qed.


End NormalizeFacts.

(** ** Logger: initialisation and levels *)

Section LoggerStateFacts.
Import Logger.
Local Open Scope list_scope.

Variable os_Getenv : string → string.
Variable os_MkdirAll : string → option string.
Variable os_OpenFile : string → option string.
Variable filepath_Dir : string → string.
Variable strings_TrimSpace : string → string.
Variable strings_ToLower : string → string.
Variable Level_Set : string → option Level.

#[local] Existing Instance M_ret.
#[local] Existing Instance M_bind.

Abbreviation Init' :=
  (Logger.Init os_Getenv os_MkdirAll os_OpenFile filepath_Dir strings_TrimSpace
     strings_ToLower Level_Set).
Abbreviation Get' :=
  (Logger.Get os_Getenv os_MkdirAll os_OpenFile filepath_Dir strings_TrimSpace
     strings_ToLower Level_Set).
Abbreviation Debug' :=
  (Logger.Debug os_Getenv os_MkdirAll os_OpenFile filepath_Dir strings_TrimSpace
     strings_ToLower Level_Set).
Abbreviation Info' :=
  (Logger.Info os_Getenv os_MkdirAll os_OpenFile filepath_Dir strings_TrimSpace
     strings_ToLower Level_Set).
Abbreviation Warn' :=
  (Logger.Warn os_Getenv os_MkdirAll os_OpenFile filepath_Dir strings_TrimSpace
     strings_ToLower Level_Set).
Abbreviation Error' :=
  (Logger.Error os_Getenv os_MkdirAll os_OpenFile filepath_Dir strings_TrimSpace
     strings_ToLower Level_Set).

#[local] Set Warnings "-inconsistent-scopes".

(** The level that [Init] settles on for a LOG_LEVEL text. *)
Abbreviation level_for level :=
  (if decide (level = EmptyString :> string) then InfoLevel
   else default InfoLevel (Level_Set (strings_ToLower level))).

(** The path of the log file. *)
Abbreviation log_path :=
  (if decide (strings_TrimSpace (os_Getenv "LOG_FILE") = EmptyString)
   then defaultLogFile else strings_TrimSpace (os_Getenv "LOG_FILE")).

(** The file core that [Init] ends up with. *)
Abbreviation file_core :=
  (match os_MkdirAll (filepath_Dir log_path) with
   | Some _ => None
   | None => match os_OpenFile log_path with
             | Some _ => None
             | None => Some log_path
             end
   end).

Lemma Init_run level st :
  ∃ complaints,
    Init' level st
    = (Ok tt,
       {| defaultLogger := Some (mkZapLogger file_core ErrorLevel 1);
          atomicLevel := level_for level;
          out_stdout := out_stdout st;
          out_files := out_files st;
          out_stderr := out_stderr st ++ complaints |})
    ∧ (complaints = [] ↔
         (level = EmptyString ∨ is_Some (Level_Set (strings_ToLower level)))
         ∧ is_Some file_core).
Proof.
  unfold Logger.Init, Logger.openLogFile, mbind, M_bind, bind, mret, M_ret,
    ret, modify.
  destruct st as [dl al so sf se].
  destruct (decide (level = EmptyString)) as [->|Hne];
    [|destruct (Level_Set (strings_ToLower level)) as [lv|] eqn:El];
    (destruct (os_MkdirAll (filepath_Dir log_path)) as [e1|] eqn:E1;
     [|destruct (os_OpenFile log_path) as [e2|] eqn:E2]);
    simpl; rewrite ?E1, ?E2; simpl;
    unfold eprint, set_atomicLevel, set_defaultLogger; simpl;
    match goal with
    | |- ∃ c, (_, {| out_stderr := (?se ++ [?a]) ++ [?b] |}) = _ ∧ _ =>
        exists [a; b]; rewrite <- app_assoc
    | |- ∃ c, (_, {| out_stderr := ?se ++ [?a] |}) = _ ∧ _ => exists [a]
    | |- ∃ c, (_, {| out_stderr := ?se |}) = _ ∧ _ =>
        exists []; rewrite app_nil_r
    end;
    (split; [reflexivity|]);
    (split; [intros H; try discriminate H; split; eauto
            |intros [[?|[? ?]] [? ?]]; done]).
Qed.

(** X4: [Init] always returns and writes no log entry. It leaves the level
    at the one LOG_LEVEL names, or at INFO when the text is empty or names
    no level; the logger gets a file core exactly when the log directory
    could be created and the file opened, at LOG_FILE or at the default
    path when that is blank; and it complains on stderr exactly when the
    level was not understood or the file could not be had. *)
Theorem Init_settles_level_and_file (level : string) (st : State) :
  ∃ complaints,
    Init' level st
    = (Ok tt,
       {| defaultLogger := Some (mkZapLogger file_core ErrorLevel 1);
          atomicLevel := level_for level;
          out_stdout := out_stdout st;
          out_files := out_files st;
          out_stderr := out_stderr st ++ complaints |})
    ∧ (complaints = [] ↔
         (level = EmptyString ∨ is_Some (Level_Set (strings_ToLower level)))
         ∧ is_Some file_core).
Proof. apply Init_run. Qed.

(** X5: the last [Init] wins: after two calls in a row the logger and the
    level are those that the second call alone would have installed. *)
Theorem Init_last_call_wins (first second : string) (st : State) :
  defaultLogger (Init' second (Init' first st).2).2
    = defaultLogger (Init' second st).2
  ∧ atomicLevel (Init' second (Init' first st).2).2
    = atomicLevel (Init' second st).2
  ∧ atomicLevel (Init' second (Init' first st).2).2 = level_for second.
Proof.
  destruct (Init_run second (Init' first st).2) as (c1 & -> & _).
  destruct (Init_run second st) as (c2 & -> & _).
  done.
Qed.

Lemma Get_initialised st l :
  defaultLogger st = Some l → Get' st = (Ok (Some l), st).
Proof.
  intros Hl. unfold Logger.Get, mbind, M_bind, bind, get, mret, M_ret, ret.
  simpl. rewrite Hl. simpl. by rewrite Hl.
Qed.

Lemma Get_fresh st :
  defaultLogger st = None →
  Get' st = (Ok (Some (mkZapLogger file_core ErrorLevel 1)),
             (Init' (os_Getenv "LOG_LEVEL") st).2).
Proof.
  intros Hl. unfold Logger.Get, mbind, M_bind, bind, get, mret, M_ret, ret.
  simpl. rewrite Hl.
  destruct (Init_run (os_Getenv "LOG_LEVEL") st) as (c & -> & _). done.
Qed.

(** X6: [Get] initialises the logger at most once: whatever the state, the
    logger it returns is installed afterwards, a second [Get] returns the
    same logger and changes nothing, and [Get] on an initialised package
    changes nothing at all. *)
Theorem Get_initialises_once (st : State) :
  ∃ l st1,
    Get' st = (Ok (Some l), st1)
    ∧ defaultLogger st1 = Some l
    ∧ Get' st1 = (Ok (Some l), st1)
    ∧ (is_Some (defaultLogger st) → st1 = st).
Proof.
  destruct (defaultLogger st) as [l|] eqn:El.
  - exists l, st. rewrite (Get_initialised st l El). by repeat split.
  - rewrite (Get_fresh st El).
    destruct (Init_run (os_Getenv "LOG_LEVEL") st) as (c & E & _).
    rewrite E. simpl. eexists _, _. split; [reflexivity|].
    split; [reflexivity|]. split; [by apply Get_initialised|].
    by intros [? ?].
Qed.

Lemma log_call_initialised lvl msg fields st l :
  defaultLogger st = Some l → lvl ≠ PanicLevel → lvl ≠ FatalLevel →
  (l ← Get'; through l (fun l => zap_log l lvl msg fields)) st
  = if Level_Enabled (atomicLevel st) lvl
    then match addFields fields with
         | Some p => (Panic p, st)
         | None =>
             (Ok tt,
              emit (l_file l)
                {| e_level := lvl; e_message := msg; e_fields := fields;
                   e_stacktrace := Level_Enabled (l_stack l) lvl |} st)
         end
    else (Ok tt, st).
Proof.
  intros Hl Hp Hf. unfold mbind, M_bind, bind.
  rewrite (Get_initialised st l Hl). simpl.
  unfold zap_log, mbind, M_bind, bind, get. simpl.
  destruct (Level_Enabled (atomicLevel st) lvl); simpl;
    [destruct (addFields fields); simpl|]; by destruct lvl.
Qed.


(** X8: a level set with [SetLevel] before the logger's first use is lost:
    the lazy [Init] resets it from LOG_LEVEL. On an initialised logger it
    stays. *)
Theorem SetLevel_before_first_use_is_lost (st : State) (lvl : Level)
    (msg : string) (fields : list any) :
  (defaultLogger st = None →
     atomicLevel ((SetLevel lvl ≫= fun _ => Info' msg fields) st).2
     = level_for (os_Getenv "LOG_LEVEL"))
  ∧ (is_Some (defaultLogger st) →
     atomicLevel ((SetLevel lvl ≫= fun _ => Info' msg fields) st).2 = lvl).
Proof.
  unfold SetLevel, modify, mbind, M_bind, bind. simpl. split.
  - intros Hl. unfold Logger.Info, mbind, M_bind, bind.
    rewrite Get_fresh by done.
    destruct (Init_run (os_Getenv "LOG_LEVEL") (set_atomicLevel lvl st))
      as (c & -> & _). simpl.
    unfold zap_Info, zap_log, mbind, M_bind, bind, get. simpl.
    destruct (Level_Enabled _ InfoLevel); [|done].
    by destruct (addFields (normalizeFields fields)).
  - intros [l Hl].
    assert (Hl' : defaultLogger (set_atomicLevel lvl st) = Some l) by done.
    pose proof (log_call_initialised InfoLevel msg (normalizeFields fields)
                  _ l Hl') as E.
    unfold Logger.Info, zap_Info. rewrite E by done.
    simpl. destruct (Level_Enabled lvl InfoLevel); [|done].
    by destruct (addFields (normalizeFields fields)).
Qed.

Abbreviation AuthEvent' :=
  (Logger.AuthEvent os_Getenv os_MkdirAll os_OpenFile filepath_Dir
     strings_TrimSpace strings_ToLower Level_Set).
Abbreviation Startup' :=
  (Logger.Startup os_Getenv os_MkdirAll os_OpenFile filepath_Dir
     strings_TrimSpace strings_ToLower Level_Set).
Abbreviation WorkerOperation' :=
  (Logger.WorkerOperation os_Getenv os_MkdirAll os_OpenFile filepath_Dir
     strings_TrimSpace strings_ToLower Level_Set).
Abbreviation FromContext' :=
  (Logger.FromContext os_Getenv os_MkdirAll os_OpenFile filepath_Dir
     strings_TrimSpace strings_ToLower Level_Set).
Abbreviation ContextWith' :=
  (Logger.ContextWith os_Getenv os_MkdirAll os_OpenFile filepath_Dir
     strings_TrimSpace strings_ToLower Level_Set).

Lemma Level_Enabled_up min lo hi :
  (Level_rank lo ≤ Level_rank hi)%Z →
  Level_Enabled min lo = true → Level_Enabled min hi = true.
Proof. unfold Level_Enabled. rewrite !Z.leb_le. lia. Qed.

(** The fields that [AuthEvent] puts ahead of the details are written by
    zap itself. *)
Lemma addFields_after_auth event username ip success rest :
  addFields ([String "event" event; String "username" username;
              String "ip" ip; Bool "success" success] ++ rest)
  = addFields rest.
Proof. by rewrite addFields_app. Qed.



(** X11: worker operations are logged at DEBUG, so a package that starts
    with LOG_LEVEL unset writes none of them, on the console or in the
    file, whatever their details. *)
Theorem WorkerOperation_silent_by_default (st : State) (workerID : Z)
    (jobID operation : string) (details : list any) :
  defaultLogger st = None → os_Getenv "LOG_LEVEL" = EmptyString →
  out_stdout (WorkerOperation' workerID jobID operation details st).2
    = out_stdout st
  ∧ out_files (WorkerOperation' workerID jobID operation details st).2
    = out_files st
  ∧ (WorkerOperation' workerID jobID operation details st).1 = Ok tt.
Proof.
  intros Hl Henv. unfold Logger.WorkerOperation, Logger.Debug, mbind, M_bind, bind.
  rewrite Get_fresh by done.
  destruct (Init_run (os_Getenv "LOG_LEVEL") st) as (c & -> & _). simpl.
  rewrite Henv. simpl.
  unfold zap_Debug, zap_log, mbind, M_bind, bind, get. simpl. done.
Qed.

Lemma zap_With_run z fields st :
  zap_With z fields st
  = match addFields fields with
    | Some p => (Panic p, st)
    | None => (Ok {| z_core := z_core z; z_with := (z_with z ++ fields)%list |}, st)
    end.
Proof.
  destruct z as [core w]. destruct fields as [|f fields].
  - simpl. by rewrite app_nil_r.
  - unfold zap_With. by destruct (addFields (f :: fields)).
Qed.

(** X12: a logger stored in a context with [WithLogger] is the one
    [FromContext] returns, without touching the global logger; a nil
    logger stored there, like a nil context, gives the global logger
    instead, even when the context held a logger before. *)
Theorem FromContext_WithLogger (ctx : Ctx) (z : Zap) (st : State) :
  FromContext' (WithLogger ctx (Some z)) st = (Ok (Some z), st)
  ∧ FromContext' (WithLogger ctx None) st = FromContext' None st
  ∧ ∃ l st1, Get' st = (Ok (Some l), st1)
             ∧ FromContext' None st = (Ok (Some (mkZap l [])), st1).
Proof.
  split; [done|]. split; [done|].
  destruct (Get_returns_logger os_Getenv os_MkdirAll os_OpenFile filepath_Dir
              strings_TrimSpace strings_ToLower Level_Set st) as (l & st1 & E).
  exists l, st1. split; [done|].
  unfold Logger.FromContext, mbind, M_bind, bind. by rewrite E.
Qed.


End LoggerStateFacts.

(** ** Static routes: embedded files and the fallback *)

Section EmbeddedFileFacts.
Import Web.
Local Open Scope list_scope.

Variable os_Getenv : string → string.
Variable os_MkdirAll : string → option string.
Variable os_OpenFile : string → option string.
Variable filepath_Dir : string → string.
Variable strings_TrimSpace : string → string.
Variable strings_ToLower : string → string.
Variable Level_Set : string → option Logger.Level.
Variable staticFiles_ReadFile : string → ReadResult.
Variable path_Join : string → string → string.
Variable filepath_Ext : string → string.
Variable mime_TypeByExtension : string → string.
Variable json_Marshal : any → string.

#[local] Existing Instance Logger.M_ret.
#[local] Existing Instance Logger.M_bind.

Abbreviation serveEmbeddedFile' :=
  (serveEmbeddedFile os_Getenv os_MkdirAll os_OpenFile filepath_Dir
     strings_TrimSpace strings_ToLower Level_Set staticFiles_ReadFile
     path_Join filepath_Ext mime_TypeByExtension).
Abbreviation serveTopLevel' :=
  (serveTopLevel os_Getenv os_MkdirAll os_OpenFile filepath_Dir
     strings_TrimSpace strings_ToLower Level_Set staticFiles_ReadFile
     path_Join filepath_Ext mime_TypeByExtension).
Abbreviation noRoute' :=
  (noRoute os_Getenv os_MkdirAll os_OpenFile filepath_Dir
     strings_TrimSpace strings_ToLower Level_Set staticFiles_ReadFile
     path_Join filepath_Ext mime_TypeByExtension json_Marshal).
Abbreviation handleNoRoute' :=
  (handleNoRoute os_Getenv os_MkdirAll os_OpenFile filepath_Dir
     strings_TrimSpace strings_ToLower Level_Set staticFiles_ReadFile
     path_Join filepath_Ext mime_TypeByExtension json_Marshal).

(** The type under which an embedded file goes out. *)
Abbreviation content_type_of relPath override :=
  (if decide (override = EmptyString) then
     if decide (mime_TypeByExtension (filepath_Ext relPath) = EmptyString)
     then "application/octet-stream"
     else mime_TypeByExtension (filepath_Ext relPath)
   else override).

Lemma Status_fresh c code :
  Written (c_Writer c) = false → (0 < code)%Z →
  c_Writer (Status c code)
  = {| w_status := code; w_size := w_size (c_Writer c);
       w_header := w_header (c_Writer c); w_body := w_body (c_Writer c) |}.
Proof.
  intros Hw Hc. unfold Status, WriteHeader. simpl. rewrite Hw.
  destruct (c_Writer c) as [s z h b]. simpl.
  destruct (0 <? code)%Z eqn:E0; [|apply Z.ltb_ge in E0; lia].
  destruct (s =? code)%Z eqn:E; simpl; [|done].
  apply Z.eqb_eq in E. by subst.
Qed.

Lemma Written_size w : Written w = false ↔ w_size w = noWritten.
Proof.
  unfold Written. rewrite negb_false_iff. apply Z.eqb_eq.
Qed.

Lemma Render_fresh c code contentType body :
  Written (c_Writer c) = false → (0 < code)%Z →
  bodyAllowedForStatus code = true →
  c_Writer (Render c code contentType body)
  = {| w_status := code;
       w_size := Z.of_nat (String.length body);
       w_header := match w_header (c_Writer c) !! "Content-Type" with
                   | Some _ => w_header (c_Writer c)
                   | None => <["Content-Type" := contentType]> (w_header (c_Writer c))
                   end;
       w_body := w_body (c_Writer c) +:+ body |}.
Proof.
  intros Hw Hc Hb. unfold Render. rewrite Hb. cbv zeta.
  unfold set_Writer at 1. cbn [c_Writer].
  rewrite (Status_fresh c code Hw Hc).
  unfold writeContentType, Write, Written. simpl.
  apply Written_size in Hw.
  destruct (w_header (c_Writer c) !! "Content-Type"); simpl;
    rewrite Hw; simpl; done.
Qed.

(** The run of [serveEmbeddedFile] on a file that cannot be read: the
    logger is fetched, the failure is written, and false comes back with
    the context as it was. *)
Lemma serveEmbeddedFile_on_error (c : Context)
    (relPath cacheControl override err : string) (st : Logger.State) :
  staticFiles_ReadFile (path_Join distDir relPath) = FileError err →
  ∃ st' l st1,
    Logger.Get os_Getenv os_MkdirAll os_OpenFile filepath_Dir strings_TrimSpace
      strings_ToLower Level_Set st = (Logger.Ok (Some l), st1)
    ∧ Logger.zap_log l Logger.ErrorLevel "failed to read embedded file"
        [ Logger.String "request_path" (URLPath (c_Request c));
          Logger.String "embedded_path" relPath;
          Logger.ErrorField (Some err) ] st1 = (Logger.Ok tt, st')
    ∧ serveEmbeddedFile' c relPath cacheControl override st
      = (Logger.Ok (false, c), st').
Proof.
  intros Hread. unfold serveEmbeddedFile. rewrite Hread.
  unfold mbind, Logger.M_bind, Logger.bind.
  destruct (Get_returns_logger os_Getenv os_MkdirAll os_OpenFile filepath_Dir
              strings_TrimSpace strings_ToLower Level_Set st)
    as (l0 & st1 & EG).
  rewrite EG. unfold Logger.through. cbv beta iota.
  destruct (zap_log_returns l0 Logger.ErrorLevel "failed to read embedded file"
              [ Logger.String "request_path" (URLPath (c_Request c));
                Logger.String "embedded_path" relPath;
                Logger.ErrorField (Some err) ] ltac:(done) ltac:(done)
              ltac:(done) st1)
    as (st2 & E2).
  unfold Logger.zap_Error_. rewrite E2. simpl.
  by exists st2, l0, st1.
Qed.

(** X14: when the embedded file cannot be read, [serveEmbeddedFile]
    returns false and leaves the response exactly as it was (the caller
    decides what to answer); the failure is reported at the error level
    with the request path, the embedded path and the error. *)
Theorem serveEmbeddedFile_missing_file (c : Context)
    (relPath cacheControl override err : string) (st : Logger.State) :
  staticFiles_ReadFile (path_Join distDir relPath) = FileError err →
  ∃ st',
    serveEmbeddedFile' c relPath cacheControl override st = (Logger.Ok (false, c), st')
    ∧ ∀ l, Logger.defaultLogger st = Some l →
        Logger.Level_Enabled (Logger.atomicLevel st) Logger.ErrorLevel = true →
        Logger.out_stdout st'
        = Logger.out_stdout st ++
          [ Logger.mkEntry Logger.ErrorLevel "failed to read embedded file"
              [ Logger.String "request_path" (URLPath (c_Request c));
                Logger.String "embedded_path" relPath;
                Logger.mkField ErrorType "error" (AError err) ]
              (Logger.Level_Enabled (Logger.l_stack l) Logger.ErrorLevel) ].
Proof.
  intros Hread.
  destruct (serveEmbeddedFile_on_error c relPath cacheControl override err st Hread)
    as (st' & l0 & st1 & EG & E2 & E).
  exists st'. split; [exact E|].
  intros l Hl Hen.
  rewrite (Get_initialised os_Getenv os_MkdirAll os_OpenFile filepath_Dir
             strings_TrimSpace strings_ToLower Level_Set st l Hl) in EG.
  injection EG as <- <-.
  revert E2. unfold Logger.zap_log, mbind, Logger.M_bind, Logger.bind, Logger.get.
  simpl. rewrite Hen. simpl. by intros [= <-].
Qed.

(** The run of [serveEmbeddedFile] on a file that is read. *)
Lemma serveEmbeddedFile_on_data (c : Context)
    (relPath cacheControl override data : string) (st : Logger.State) :
  staticFiles_ReadFile (path_Join distDir relPath) = FileData data →
  Written (c_Writer c) = false →
  ∃ c',
    serveEmbeddedFile' c relPath cacheControl override st = (Logger.Ok (true, c'), st)
    ∧ w_status (c_Writer c') = StatusOK
    ∧ w_header (c_Writer c') !! "Content-Type"
        = Some (content_type_of relPath override)
    ∧ content_type_of relPath override ≠ EmptyString
    ∧ w_header (c_Writer c') !! "Cache-Control"
        = (if decide (cacheControl = EmptyString)
           then w_header (c_Writer c) !! "Cache-Control"
           else Some cacheControl)
    ∧ w_body (c_Writer c')
        = (if decide (Method (c_Request c) = "HEAD") then w_body (c_Writer c)
           else w_body (c_Writer c) +:+ data).
Proof.
  intros Hread Hw. unfold serveEmbeddedFile. rewrite Hread.
  set (ct := content_type_of relPath override).
  assert (Hct : ct ≠ EmptyString).
  { unfold ct. repeat case_decide; done. }
  set (c1 := Header c "Content-Type" ct).
  set (c2 := if decide (cacheControl = EmptyString) then c1
             else Header c1 "Cache-Control" cacheControl).
  assert (Hreq : c_Request c2 = c_Request c).
  { unfold c2, c1. by case_decide. }
  assert (Hw2 : Written (c_Writer c2) = false).
  { unfold c2, c1. by case_decide. }
  assert (Hb2 : w_body (c_Writer c2) = w_body (c_Writer c)).
  { unfold c2, c1. by case_decide. }
  assert (Hct2 : w_header (c_Writer c2) !! "Content-Type" = Some ct).
  { unfold c2, c1, Header. simpl. destruct (decide (ct = EmptyString)); [done|].
    destruct (decide (cacheControl = EmptyString)); simpl.
    - by rewrite lookup_insert_eq.
    - destruct (decide (cacheControl = EmptyString)); [done|].
      rewrite lookup_insert_ne by done. by rewrite lookup_insert_eq. }
  assert (Hcc2 : w_header (c_Writer c2) !! "Cache-Control"
                 = if decide (cacheControl = EmptyString)
                   then w_header (c_Writer c) !! "Cache-Control"
                   else Some cacheControl).
  { unfold c2, c1, Header. simpl. destruct (decide (ct = EmptyString)); [done|].
    destruct (decide (cacheControl = EmptyString)); simpl.
    - by rewrite lookup_insert_ne.
    - destruct (decide (cacheControl = EmptyString)); [done|].
      by rewrite lookup_insert_eq. }
  rewrite Hreq.
  destruct (decide (Method (c_Request c) = "HEAD")) as [Hhead|Hget].
  - exists (Status c2 StatusOK). split; [done|].
    rewrite (Status_fresh c2 StatusOK Hw2 ltac:(done)). simpl.
    by repeat split.
  - exists (Data c2 StatusOK ct data). split; [done|].
    unfold Data.
    rewrite (Render_fresh c2 StatusOK ct data Hw2 ltac:(done) ltac:(done)).
    simpl. rewrite Hct2, Hb2. by repeat split.
Qed.

(** X15: when the embedded file is read, [serveEmbeddedFile] returns true
    with status 200 on a response not yet written; the Content-Type is
    the override, else the type of the extension, else
    application/octet-stream, never empty; a HEAD request gets the
    headers and no body, any other request gets the bytes of the file
    appended; and the logger is not touched. *)
Theorem serveEmbeddedFile_serves_file (c : Context)
    (relPath cacheControl override data : string) (st : Logger.State) :
  staticFiles_ReadFile (path_Join distDir relPath) = FileData data →
  Written (c_Writer c) = false →
  ∃ c',
    serveEmbeddedFile' c relPath cacheControl override st = (Logger.Ok (true, c'), st)
    ∧ w_status (c_Writer c') = StatusOK
    ∧ w_header (c_Writer c') !! "Content-Type"
        = Some (content_type_of relPath override)
    ∧ content_type_of relPath override ≠ EmptyString
    ∧ w_header (c_Writer c') !! "Cache-Control"
        = (if decide (cacheControl = EmptyString)
           then w_header (c_Writer c) !! "Cache-Control"
           else Some cacheControl)
    ∧ w_body (c_Writer c')
        = (if decide (Method (c_Request c) = "HEAD") then w_body (c_Writer c)
           else w_body (c_Writer c) +:+ data).
Proof.
  intros Hread Hw.
  destruct (serveEmbeddedFile_on_data c relPath cacheControl override data st
              Hread Hw) as (c' & E & Hs & Hct & Hne & Hcc & Hb).
  exists c'. split; [exact E|]. by repeat split.
Qed.

(** X16: a request that falls through to the fallback route with a path
    that starts with "/api" (this includes paths such as "/apiary") is
    answered 404 with the JSON error object, for every method; no
    embedded file is read and the logger is not touched. *)
Theorem noRoute_api_is_json_404 (c : Context) (st : Logger.State) :
  (∃ rest, URLPath (c_Request c) = "/api" +:+ rest) →
  Written (c_Writer c) = false →
  ∃ c',
    noRoute' c st = (Logger.Ok c', st)
    ∧ w_status (c_Writer c') = StatusNotFound
    ∧ w_body (c_Writer c')
        = w_body (c_Writer c)
          +:+ json_Marshal (AMap {[ "error" := AString "API endpoint not found" ]})
    ∧ (w_header (c_Writer c) !! "Content-Type" = None →
       w_header (c_Writer c') !! "Content-Type"
         = Some "application/json; charset=utf-8").
Proof.
  intros [rest Hpath] Hw. unfold noRoute.
  rewrite Hpath, HasPrefix_app. eexists. split; [reflexivity|].
  unfold JSON.
  rewrite (Render_fresh c StatusNotFound _ _ Hw ltac:(done) ltac:(done)).
  simpl. repeat split. intros ->. by rewrite lookup_insert_eq.
Qed.

(** X17: outside "/api", a fallback request that is neither GET nor HEAD
    is answered 404 and never with the index page. The handler sets the
    status and nothing else: no header, no body, no embedded file read,
    no log entry. The router, which runs the handler with the status
    preset to 404, finds nothing written and sends gin's own answer: the
    text "404 page not found" as text/plain. *)
Theorem noRoute_rejects_other_methods (c : Context) (st : Logger.State) :
  HasPrefix (URLPath (c_Request c)) "/api" = false →
  Method (c_Request c) ≠ "GET" → Method (c_Request c) ≠ "HEAD" →
  Written (c_Writer c) = false →
  noRoute' c st = (Logger.Ok (Status c StatusNotFound), st)
  ∧ c_Writer (Status c StatusNotFound)
    = {| w_status := StatusNotFound; w_size := noWritten;
         w_header := w_header (c_Writer c); w_body := w_body (c_Writer c) |}
  ∧ handleNoRoute' c st
    = (Logger.Ok
         (set_Writer c
            {| w_status := StatusNotFound; w_size := 18;
               w_header := <["Content-Type" := "text/plain"]> (w_header (c_Writer c));
               w_body := w_body (c_Writer c) +:+ "404 page not found" |}),
       st).
Proof.
  intros Hapi Hget Hhead Hw. split; [|split].
  - unfold noRoute. rewrite Hapi.
    by rewrite !bool_decide_eq_true_2 by done.
  - rewrite (Status_fresh c StatusNotFound Hw ltac:(done)).
    apply Written_size in Hw. by rewrite Hw.
  - unfold handleNoRoute, serveError, noRoute, mbind, Logger.M_bind, Logger.bind.
    cbn [c_Request set_Writer]. rewrite Hapi.
    rewrite !bool_decide_eq_true_2 by done. cbn [andb].
    unfold mret, Logger.M_ret, Logger.ret. cbn [c_Writer Status set_Writer].
    apply Written_size in Hw.
    unfold WriteHeader, Written, Write. cbn [w_status w_size w_header w_body].
    rewrite Hw. reflexivity.
Qed.

(** X18: outside "/api", a GET or HEAD fallback request gets the embedded
    index.html: status 200, text/html, Cache-Control no-cache, and the
    page as body (no body for HEAD). When index.html cannot be read the
    answer is 500 with the text "Error loading page". *)
Theorem noRoute_serves_index (c : Context) (st : Logger.State) :
  HasPrefix (URLPath (c_Request c)) "/api" = false →
  Method (c_Request c) = "GET" ∨ Method (c_Request c) = "HEAD" →
  Written (c_Writer c) = false →
  (∀ page, staticFiles_ReadFile (path_Join distDir indexHTMLFilename) = FileData page →
     ∃ c', noRoute' c st = (Logger.Ok c', st)
       ∧ w_status (c_Writer c') = StatusOK
       ∧ w_header (c_Writer c') !! "Content-Type" = Some "text/html; charset=utf-8"
       ∧ w_header (c_Writer c') !! "Cache-Control" = Some cacheIndex
       ∧ w_body (c_Writer c')
           = (if decide (Method (c_Request c) = "HEAD") then w_body (c_Writer c)
              else w_body (c_Writer c) +:+ page))
  ∧ (∀ err, staticFiles_ReadFile (path_Join distDir indexHTMLFilename) = FileError err →
     ∃ c' st', noRoute' c st = (Logger.Ok c', st')
       ∧ w_status (c_Writer c') = StatusInternalServerError
       ∧ w_body (c_Writer c') = w_body (c_Writer c) +:+ "Error loading page").
Proof.
  intros Hapi Hm Hw.
  assert (Hmeth : bool_decide (Method (c_Request c) ≠ "GET")
                  && bool_decide (Method (c_Request c) ≠ "HEAD") = false).
  { destruct Hm as [-> | ->]; done. }
  split.
  - intros page Hread.
    destruct (serveEmbeddedFile_on_data c indexHTMLFilename cacheIndex
                "text/html; charset=utf-8" page st Hread Hw)
      as (c' & E & Hs & Hct & _ & Hcc & Hb).
    exists c'. unfold noRoute. rewrite Hapi, Hmeth.
    unfold mbind, Logger.M_bind, Logger.bind. rewrite E. simpl.
    by repeat split.
  - intros err Hread.
    destruct (serveEmbeddedFile_on_error c indexHTMLFilename cacheIndex
                "text/html; charset=utf-8" err st Hread)
      as (st' & _ & _ & _ & _ & E).
    eexists _, st'. unfold noRoute. rewrite Hapi, Hmeth.
    unfold mbind, Logger.M_bind, Logger.bind. rewrite E. simpl.
    split; [reflexivity|]. unfold String_.
    rewrite (Render_fresh c StatusInternalServerError _ _ Hw ltac:(done) ltac:(done)).
    done.
Qed.

(** X19: a top-level static file route answers 200 with the file under
    Cache-Control "public, max-age=86400" and the type of its extension,
    and answers 404 with no header and no body when the file is not in
    the embedded directory. *)
Theorem serveTopLevel_file_or_404 (relPath : string) (c : Context)
    (st : Logger.State) :
  Written (c_Writer c) = false →
  (∀ data, staticFiles_ReadFile (path_Join distDir relPath) = FileData data →
     ∃ c', serveTopLevel' relPath c st = (Logger.Ok c', st)
       ∧ w_status (c_Writer c') = StatusOK
       ∧ w_header (c_Writer c') !! "Cache-Control" = Some cacheTopLevel
       ∧ w_header (c_Writer c') !! "Content-Type"
           = Some (content_type_of relPath EmptyString)
       ∧ w_body (c_Writer c')
           = (if decide (Method (c_Request c) = "HEAD") then w_body (c_Writer c)
              else w_body (c_Writer c) +:+ data))
  ∧ (∀ err, staticFiles_ReadFile (path_Join distDir relPath) = FileError err →
     ∃ st', serveTopLevel' relPath c st = (Logger.Ok (Status c StatusNotFound), st')
       ∧ c_Writer (Status c StatusNotFound)
         = {| w_status := StatusNotFound; w_size := noWritten;
              w_header := w_header (c_Writer c); w_body := w_body (c_Writer c) |}).
Proof.
  intros Hw. split.
  - intros data Hread.
    destruct (serveEmbeddedFile_on_data c relPath cacheTopLevel
                EmptyString data st Hread Hw)
      as (c' & E & Hs & Hct & _ & Hcc & Hb).
    exists c'. unfold serveTopLevel, mbind, Logger.M_bind, Logger.bind.
    rewrite E. simpl. by repeat split.
  - intros err Hread.
    destruct (serveEmbeddedFile_on_error c relPath cacheTopLevel
                EmptyString err st Hread) as (st' & _ & _ & _ & _ & E).
    exists st'. split.
    + unfold serveTopLevel, mbind, Logger.M_bind, Logger.bind.
      by rewrite E.
    + rewrite (Status_fresh c StatusNotFound Hw ltac:(done)).
      apply Written_size in Hw. by rewrite Hw.
Qed.

End EmbeddedFileFacts.

(** X20: for a [filepath] without "..", [serveAsset] hands the request,
    unchanged, to the embedded file server, on a response that already
    carries the immutable one-year Cache-Control; what the file server
    returns is the response. *)
Theorem serveAsset_delegates_with_cache_header
    (assetsHandler : Web.ResponseWriter → Web.Request → Web.ResponseWriter)
    (c : Web.Context) :
  (¬ ∃ pre post, Web.Param c "filepath" = pre +:+ ".." +:+ post) →
  ∃ w,
    Web.c_Writer (Web.serveAsset assetsHandler c) = assetsHandler w (Web.c_Request c)
    ∧ Web.w_header w !! "Cache-Control" = Some "public, max-age=31536000, immutable"
    ∧ Web.w_status w = Web.w_status (Web.c_Writer c)
    ∧ Web.w_body w = Web.w_body (Web.c_Writer c)
    ∧ Web.c_Params (Web.serveAsset assetsHandler c) = Web.c_Params c.
Proof.
  intros Hno. unfold Web.serveAsset.
  destruct (Web.Contains (Web.Param c "filepath") "..") eqn:E.
  { exfalso. apply Hno. by apply Contains_spec. }
  eexists. split; [reflexivity|]. simpl.
  rewrite lookup_insert_eq. by repeat split.
Qed.

(** ** Configuration: environment detection *)

Section ConfigEnvFacts.
Import ConfigEnv.
Local Open Scope list_scope.

Variable os_MkdirAll : string → option string.
Variable os_OpenFile : string → option string.
Variable filepath_Dir : string → string.
Variable strings_ToLower : string → string.
Variable Level_Set : string → option Logger.Level.
Variable runtime_GOOS : string.
Variable runtime_GOARCH : string.
Variable readable : string → bool.
Variable writable : string → bool.
Variable rand_Read : nat → string + string.
Variable exec_LookPath : string → option string.
Variable godotenv_Load : (string → string) → option string * (string → string).

#[local] Existing Instance CM_ret.
#[local] Existing Instance CM_bind.

Abbreviation logger_Warn' :=
  (logger_Warn os_MkdirAll os_OpenFile filepath_Dir strings_ToLower Level_Set).
Abbreviation logger_Debug' :=
  (logger_Debug os_MkdirAll os_OpenFile filepath_Dir strings_ToLower Level_Set).
Abbreviation detectEnvironment' :=
  (detectEnvironment os_MkdirAll os_OpenFile filepath_Dir strings_ToLower
     Level_Set runtime_GOOS runtime_GOARCH).
Abbreviation getJWTSecret' :=
  (getJWTSecret os_MkdirAll os_OpenFile filepath_Dir strings_ToLower
     Level_Set readable writable rand_Read).
Abbreviation findUVPath' :=
  (findUVPath os_MkdirAll os_OpenFile filepath_Dir strings_ToLower
     Level_Set exec_LookPath).
Abbreviation Load' :=
  (Load os_MkdirAll os_OpenFile filepath_Dir strings_ToLower Level_Set
     runtime_GOOS runtime_GOARCH readable writable rand_Read exec_LookPath
     godotenv_Load).

Lemma logger_Warn_returns msg fields w :
  Logger.addFields (Logger.normalizeFields fields) = None →
  ∃ st, logger_Warn' msg fields w = (Logger.Ok tt, set_logs w st).
Proof.
  intros Hsafe. unfold logger_Warn, logging.
  destruct (logged_through_Get (env w) os_MkdirAll os_OpenFile filepath_Dir
              TrimSpace strings_ToLower Level_Set Logger.WarnLevel msg
              (Logger.normalizeFields fields) ltac:(done) ltac:(done) Hsafe
              (logs w))
    as (st & E).
  exists st. unfold Logger.Warn, Logger.zap_Warn. by rewrite E.
Qed.

Lemma logger_Debug_returns msg fields w :
  Logger.addFields (Logger.normalizeFields fields) = None →
  ∃ st, logger_Debug' msg fields w = (Logger.Ok tt, set_logs w st).
Proof.
  intros Hsafe. unfold logger_Debug, logging.
  destruct (logged_through_Get (env w) os_MkdirAll os_OpenFile filepath_Dir
              TrimSpace strings_ToLower Level_Set Logger.DebugLevel msg
              (Logger.normalizeFields fields) ltac:(done) ltac:(done) Hsafe
              (logs w))
    as (st & E).
  exists st. unfold Logger.Debug, Logger.zap_Debug. by rewrite E.
Qed.

#[local] Set Warnings "-inconsistent-scopes".

(** The capabilities that [detectEnvironment] settles on. *)
Abbreviation nvidia_of e :=
  (let base := bool_decide (runtime_GOOS = "linux")
               && bool_decide (runtime_GOARCH = "amd64") in
   let forced :=
     if decide (e "SCRIBERR_FORCE_NVIDIA" ≠ EmptyString)
     then default base (ParseBool (e "SCRIBERR_FORCE_NVIDIA")) else base in
   if decide (e "SCRIBERR_DISABLE_NVIDIA" ≠ EmptyString)
   then match ParseBool (e "SCRIBERR_DISABLE_NVIDIA") with
        | Some true => false
        | _ => forced
        end
   else forced).

Abbreviation mps_of e :=
  (let base := bool_decide (runtime_GOOS = "darwin")
               && bool_decide (runtime_GOARCH = "arm64") in
   if decide (e "SCRIBERR_DISABLE_MPS" ≠ EmptyString)
   then match ParseBool (e "SCRIBERR_DISABLE_MPS") with
        | Some true => false
        | _ => base
        end
   else base).

Lemma detectEnvironment_run w :
  ∃ device st,
    detectEnvironment' w
    = (Logger.Ok {| Config.OS := runtime_GOOS; Config.Arch := runtime_GOARCH;
                    Config.SupportsNvidiaStack := nvidia_of (env w);
                    Config.SupportsMPS := mps_of (env w);
                    Config.DefaultWhisperDevice := device |},
       set_logs w st)
    ∧ (env w "SCRIBERR_DEFAULT_DEVICE" ≠ EmptyString →
       strings_ToLower (env w "SCRIBERR_DEFAULT_DEVICE")
         ∈ ["cpu"; "cuda"; "mps"; "auto"] →
       device = strings_ToLower (env w "SCRIBERR_DEFAULT_DEVICE") ∧ st = logs w)
    ∧ (strings_ToLower (env w "SCRIBERR_DEFAULT_DEVICE")
         ∉ ["cpu"; "cuda"; "mps"; "auto"] →
       device = if mps_of (env w) then "mps" else "cpu")
    ∧ (env w "SCRIBERR_DEFAULT_DEVICE" = EmptyString →
       device = (if mps_of (env w) then "mps" else "cpu") ∧ st = logs w).
Proof.
  unfold detectEnvironment, mbind, CM_bind, cbind, os_Getenv. cbv zeta.
  cbn [fst snd].
  destruct (decide (env w "SCRIBERR_DEFAULT_DEVICE" ≠ EmptyString)) as [Hne|He].
  - destruct (bool_decide (strings_ToLower (env w "SCRIBERR_DEFAULT_DEVICE")
                             ∈ ["cpu"; "cuda"; "mps"; "auto"])) eqn:Hv.
    + apply bool_decide_eq_true in Hv.
      eexists _, (logs w). split.
      * unfold mret, CM_ret, cret. destruct w; reflexivity.
      * by repeat split.
    + apply bool_decide_eq_false in Hv.
      destruct (logger_Warn_returns "Ignoring invalid SCRIBERR_DEFAULT_DEVICE"
                  [AString "value"; AString (env w "SCRIBERR_DEFAULT_DEVICE")] w
                  ltac:(done))
        as (st & E).
      eexists _, st. split.
      * rewrite E. reflexivity.
      * by repeat split.
  - apply dec_stable in He.
    eexists _, (logs w). split.
    + unfold mret, CM_ret, cret. destruct w; reflexivity.
    + by repeat split.
Qed.

(** X21: [detectEnvironment] always returns; it reports the operating
    system and architecture it runs on, and its default device is one of
    cpu, cuda, mps and auto: a SCRIBERR_DEFAULT_DEVICE that spells one of
    them in any case is taken, lower-cased, whatever the capabilities
    (cuda can be the default where the NVIDIA stack is not supported);
    any other value is ignored, and the default is then mps where MPS
    is supported and cpu elsewhere. It changes neither the environment
    nor the files. *)
Theorem detectEnvironment_default_device (w : World) :
  ∃ e w',
    detectEnvironment' w = (Logger.Ok e, w')
    ∧ Config.OS e = runtime_GOOS ∧ Config.Arch e = runtime_GOARCH
    ∧ Config.DefaultWhisperDevice e ∈ ["cpu"; "cuda"; "mps"; "auto"]
    ∧ (env w "SCRIBERR_DEFAULT_DEVICE" ≠ EmptyString →
       strings_ToLower (env w "SCRIBERR_DEFAULT_DEVICE")
         ∈ ["cpu"; "cuda"; "mps"; "auto"] →
       Config.DefaultWhisperDevice e
         = strings_ToLower (env w "SCRIBERR_DEFAULT_DEVICE"))
    ∧ (strings_ToLower (env w "SCRIBERR_DEFAULT_DEVICE")
         ∉ ["cpu"; "cuda"; "mps"; "auto"] →
       Config.DefaultWhisperDevice e
         = if Config.SupportsMPS e then "mps" else "cpu")
    ∧ env w' = env w ∧ files w' = files w.
Proof.
  destruct (detectEnvironment_run w) as (device & st & E & Hvalid & Hbad & Hunset).
  eexists _, _. split; [exact E|]. simpl.
  split; [done|]. split; [done|]. split.
  - destruct (decide (strings_ToLower (env w "SCRIBERR_DEFAULT_DEVICE")
                        ∈ ["cpu"; "cuda"; "mps"; "auto"])) as [Hv|Hv].
    + destruct (decide (env w "SCRIBERR_DEFAULT_DEVICE" = EmptyString)) as [He|He].
      * destruct (Hunset He) as [-> _]. destruct (mps_of (env w)); rewrite !elem_of_cons; auto.
      * by destruct (Hvalid He Hv) as [-> _].
    + rewrite (Hbad Hv). destruct (mps_of (env w)); rewrite !elem_of_cons; auto.
  - split; [|split].
    + intros Hne Hv. by destruct (Hvalid Hne Hv) as [-> _].
    + intros Hv. by rewrite (Hbad Hv).
    + done.
Qed.

(** X22: the capability flags of [detectEnvironment]. MPS is reported only
    on darwin/arm64: it can be switched off but not forced. For NVIDIA a
    true SCRIBERR_DISABLE_NVIDIA wins over SCRIBERR_FORCE_NVIDIA; a force
    value that parses is taken as it is, so a false one switches NVIDIA
    off on linux/amd64 too; values that do not parse as booleans are
    ignored; with the variables unset NVIDIA is reported exactly on
    linux/amd64. *)
Theorem detectEnvironment_capabilities (w : World) :
  ∃ e w',
    detectEnvironment' w = (Logger.Ok e, w')
    ∧ (Config.SupportsMPS e = true →
       runtime_GOOS = "darwin" ∧ runtime_GOARCH = "arm64")
    ∧ (ParseBool (env w "SCRIBERR_DISABLE_NVIDIA") = Some true →
       Config.SupportsNvidiaStack e = false)
    ∧ (ParseBool (env w "SCRIBERR_DISABLE_NVIDIA") ≠ Some true →
       ∀ forced, ParseBool (env w "SCRIBERR_FORCE_NVIDIA") = Some forced →
       Config.SupportsNvidiaStack e = forced)
    ∧ (ParseBool (env w "SCRIBERR_DISABLE_NVIDIA") ≠ Some true →
       ParseBool (env w "SCRIBERR_FORCE_NVIDIA") = None →
       (Config.SupportsNvidiaStack e = true
        ↔ runtime_GOOS = "linux" ∧ runtime_GOARCH = "amd64")).
Proof.
  destruct (detectEnvironment_run w) as (device & st & E & _).
  eexists _, _. split; [exact E|]. simpl.
  assert (Hempty : ParseBool EmptyString = None) by reflexivity.
  split; [|split; [|split]].
  - intros H.
    assert (Hbase : bool_decide (runtime_GOOS = "darwin")
                    && bool_decide (runtime_GOARCH = "arm64") = true).
    { destruct (decide (env w "SCRIBERR_DISABLE_MPS" ≠ EmptyString)); [|done].
      by destruct (ParseBool (env w "SCRIBERR_DISABLE_MPS")) as [[]|]. }
    apply andb_true_iff in Hbase as [H1 H2].
    by apply bool_decide_eq_true in H1, H2.
  - intros Hp.
    destruct (decide (env w "SCRIBERR_DISABLE_NVIDIA" ≠ EmptyString)) as [Hd|Hd];
      [by rewrite Hp|].
    apply dec_stable in Hd. rewrite Hd in Hp. done.
  - intros Hno forced Hf.
    destruct (decide (env w "SCRIBERR_FORCE_NVIDIA" ≠ EmptyString)) as [Hn|Hn];
      [|apply dec_stable in Hn; rewrite Hn in Hf; done].
    rewrite Hf. simpl.
    destruct (decide (env w "SCRIBERR_DISABLE_NVIDIA" ≠ EmptyString)); [|done].
    by destruct (ParseBool (env w "SCRIBERR_DISABLE_NVIDIA")) as [[]|].
  - intros Hno Hf. rewrite Hf. simpl.
    assert (Hbase : bool_decide (runtime_GOOS = "linux")
                    && bool_decide (runtime_GOARCH = "amd64") = true
                    ↔ runtime_GOOS = "linux" ∧ runtime_GOARCH = "amd64").
    { by rewrite andb_true_iff, !bool_decide_eq_true. }
    destruct (decide (env w "SCRIBERR_FORCE_NVIDIA" ≠ EmptyString));
      (destruct (decide (env w "SCRIBERR_DISABLE_NVIDIA" ≠ EmptyString));
       [|done]);
      by destruct (ParseBool (env w "SCRIBERR_DISABLE_NVIDIA")) as [[]|].
Qed.

End ConfigEnvFacts.

(** ** Configuration: the JWT secret *)

Section TrimHexFacts.
Import ConfigEnv.
Import Stdlib.Strings.Ascii.
Local Open Scope list_scope.

Abbreviation hexchars := (String.list_ascii_of_string "0123456789abcdef").

Lemma hex_code a : a ∈ hexchars → (48 ≤ nat_of_ascii a ≤ 102)%nat.
Proof.
  intros H. simpl in H.
  repeat (apply elem_of_cons in H as [->|H]); [..|by apply elem_of_nil in H];
    vm_compute; lia.
Qed.

Lemma not_in_codes (n : nat) (l : list nat) :
  Forall (fun k => n ≠ k) l → bool_decide (n ∈ l) = false.
Proof.
  intros H. apply bool_decide_eq_false_2. intros Hin.
  rewrite Forall_forall in H. by apply (H n Hin).
Qed.

Lemma hex_not_space a x y :
  a ∈ hexchars →
  isAsciiSpace a = false
  ∧ isSpace2 a x = false ∧ isSpace2 x a = false
  ∧ isSpace3 a x y = false ∧ isSpace3 x y a = false.
Proof.
  intros H. apply hex_code in H.
  unfold isAsciiSpace, isSpace2, isSpace3.
  set (n := nat_of_ascii a) in *.
  assert (E194 : Nat.eqb n 194 = false) by (apply Nat.eqb_neq; lia).
  assert (E225 : Nat.eqb n 225 = false) by (apply Nat.eqb_neq; lia).
  assert (E226 : Nat.eqb n 226 = false) by (apply Nat.eqb_neq; lia).
  assert (E227 : Nat.eqb n 227 = false) by (apply Nat.eqb_neq; lia).
  assert (E128 : Nat.eqb n 128 = false) by (apply Nat.eqb_neq; lia).
  assert (E159 : Nat.eqb n 159 = false) by (apply Nat.eqb_neq; lia).
  assert (L128 : Nat.leb 128 n = false) by (apply Nat.leb_gt; lia).
  assert (S1 : bool_decide (n ∈ [9; 10; 11; 12; 13; 32]) = false)
    by (apply not_in_codes; repeat constructor; lia).
  assert (S2 : bool_decide (n ∈ [133; 160]) = false)
    by (apply not_in_codes; repeat constructor; lia).
  assert (S3 : bool_decide (n ∈ [168; 169; 175]) = false)
    by (apply not_in_codes; repeat constructor; lia).
  rewrite E194, E225, E226, E227, E128, E159, L128, S1, S2, S3.
  rewrite ?andb_false_r, ?andb_false_l, ?orb_false_r, ?orb_false_l.
  by repeat split.
Qed.

Lemma trimFront_hex backwards a l :
  a ∈ hexchars → trimFront backwards (a :: l) = a :: l.
Proof.
  intros H. simpl.
  destruct (hex_not_space a a a H) as (-> & _).
  destruct l as [|b l]; [done|].
  destruct (hex_not_space a b b H) as (_ & -> & -> & _).
  destruct l as [|c l]; [by destruct backwards|].
  destruct (hex_not_space a b c H) as (_ & _ & _ & -> & _).
  destruct (hex_not_space a c b H) as (_ & _ & _ & _ & ->).
  by destruct backwards.
Qed.

Lemma hexDigit_hex n : hexDigit n ∈ hexchars.
Proof.
  unfold hexDigit. apply list_elem_of_In.
  destruct (nth_in_or_default n hexchars "0"%char) as [H| ->]; [done|].
  simpl. auto.
Qed.

Lemma EncodeToString_chars src :
  Forall (fun a => a ∈ hexchars) (String.list_ascii_of_string (EncodeToString src)).
Proof.
  unfold EncodeToString. rewrite String.list_ascii_of_string_of_list_ascii.
  induction (String.list_ascii_of_string src) as [|b l IH]; simpl; [constructor|].
  constructor; [apply hexDigit_hex|]. constructor; [apply hexDigit_hex|exact IH].
Qed.

Lemma length_string_of_list (l : list ascii) :
  String.length (String.string_of_list_ascii l) = length l.
Proof. induction l as [|a l IH]; cbn; [done|]. by rewrite IH. Qed.

Lemma EncodeToString_length src :
  String.length (EncodeToString src) = 2 * String.length src.
Proof.
  unfold EncodeToString. rewrite length_string_of_list.
  rewrite <- (String.string_of_list_ascii_of_string src) at 2.
  rewrite length_string_of_list.
  induction (String.list_ascii_of_string src) as [|b l IH]; [done|].
  cbn [flat_map app length]. rewrite IH. lia.
Qed.

(** A string of hexadecimal digits has no white space to trim. *)
Lemma TrimSpace_hex s :
  Forall (fun a => a ∈ hexchars) (String.list_ascii_of_string s) → TrimSpace s = s.
Proof.
  intros H. unfold TrimSpace.
  rewrite <- (String.string_of_list_ascii_of_string s) at 2. f_equal.
  destruct (String.list_ascii_of_string s) as [|a l] eqn:E; [done|].
  rewrite trimFront_hex by by inversion H.
  destruct (rev (a :: l)) as [|z r] eqn:Er.
  { apply (f_equal length) in Er. rewrite length_rev in Er. done. }
  rewrite trimFront_hex.
  - by rewrite <- Er, rev_involutive.
  - rewrite Forall_forall in H. apply H.
    apply list_elem_of_In, in_rev. rewrite Er. by left.
Qed.

Example TrimSpace_trims :
  TrimSpace (String.String (ascii_of_nat 32) (String.String (ascii_of_nat 9)
               ("ab cd" +:+ String.String (ascii_of_nat 194)
                  (String.String (ascii_of_nat 160)
                     (String.String (ascii_of_nat 10) EmptyString)))))
  = "ab cd"
  ∧ EncodeToString (String.String (ascii_of_nat 0)
                      (String.String (ascii_of_nat 255) "J")) = "00ff4a".
Proof. by vm_compute. Qed.

End TrimHexFacts.

Section SecretFacts.
Import ConfigEnv.
Local Open Scope list_scope.

Variable os_MkdirAll : string → option string.
Variable os_OpenFile : string → option string.
Variable filepath_Dir : string → string.
Variable strings_ToLower : string → string.
Variable Level_Set : string → option Logger.Level.
Variable readable : string → bool.
Variable writable : string → bool.
Variable rand_Read : nat → string + string.

#[local] Existing Instance CM_ret.
#[local] Existing Instance CM_bind.
#[local] Set Warnings "-inconsistent-scopes".

Abbreviation getJWTSecret_with rand :=
  (getJWTSecret os_MkdirAll os_OpenFile filepath_Dir strings_ToLower
     Level_Set readable writable rand).

(** The file in which the secret is kept. *)
Abbreviation secret_file w :=
  (if decide (env w "JWT_SECRET_FILE" ≠ EmptyString)
   then env w "JWT_SECRET_FILE" else "data/jwt_secret").

(** The secret file gives nothing to use: it cannot be read, or is empty. *)
Abbreviation no_stored_secret w :=
  (readable (secret_file w) = false
   ∨ files w !! secret_file w = None
   ∨ files w !! secret_file w = Some EmptyString).

Lemma getJWTSecret_prefix rand w :
  env w "JWT_SECRET" = EmptyString →
  getJWTSecret_with rand w
  = match (if readable (secret_file w) then files w !! secret_file w else None) with
    | Some (String.String a data) =>
        (Logger.Ok (TrimSpace (String.String a data)), w)
    | _ =>
        match rand 32 with
        | inr err =>
            (logger_Warn os_MkdirAll os_OpenFile filepath_Dir strings_ToLower
               Level_Set "Could not generate secure JWT secret, using fallback"
               [AString "error"; AError err]
             ≫= fun _ => mret "fallback-jwt-secret-please-set-JWT_SECRET-env-var") w
        | inl bytes =>
            (os_WriteFile_ writable (secret_file w) (EncodeToString bytes)
             ≫= fun _ =>
             logger_Debug os_MkdirAll os_OpenFile filepath_Dir strings_ToLower
               Level_Set "Generated persistent JWT secret"
               [AString "path"; AString (secret_file w)]
             ≫= fun _ => mret (EncodeToString bytes)) w
        end
    end.
Proof.
  intros He.
  unfold getJWTSecret, getEnv, os_Getenv, os_ReadFile, mbind, CM_bind, cbind.
  cbn [fst snd]. rewrite He.
  destruct (decide (EmptyString ≠ EmptyString)) as [?|_]; [done|].
  destruct (decide (env w "JWT_SECRET_FILE" ≠ EmptyString)); cbn;
    by repeat case_match.
Qed.

(** X23: a non-empty JWT_SECRET is the secret, as it is; no file is read or
    written, nothing is generated and nothing is logged. *)
Theorem getJWTSecret_prefers_environment (w : World) :
  env w "JWT_SECRET" ≠ EmptyString →
  getJWTSecret_with rand_Read w = (Logger.Ok (env w "JWT_SECRET"), w).
Proof.
  intros Hne.
  unfold getJWTSecret, os_Getenv, mbind, CM_bind, cbind. cbn [fst snd].
  by destruct (decide (env w "JWT_SECRET" ≠ EmptyString)).
Qed.

Lemma trimFront_all_space l :
  Forall (fun a => isAsciiSpace a = true) l → trimFront false l = [].
Proof. induction 1 as [|a l Ha _ IH]; simpl; [done|]. by rewrite Ha. Qed.

(** X24: without JWT_SECRET, a readable, non-empty secret file (at
    JWT_SECRET_FILE, or data/jwt_secret) decides: the secret is its content
    with the white space at both ends removed, and nothing else happens.
    A file that holds nothing but ASCII white space therefore gives the
    empty secret, and no new secret is generated. *)
Theorem getJWTSecret_reads_secret_file (w : World) (data : string) :
  env w "JWT_SECRET" = EmptyString →
  readable (secret_file w) = true →
  files w !! secret_file w = Some data →
  data ≠ EmptyString →
  getJWTSecret_with rand_Read w = (Logger.Ok (TrimSpace data), w)
  ∧ (Forall (fun a => isAsciiSpace a = true) (String.list_ascii_of_string data) →
     getJWTSecret_with rand_Read w = (Logger.Ok EmptyString, w)).
Proof.
  intros He Hr Hf Hd.
  assert (E : getJWTSecret_with rand_Read w = (Logger.Ok (TrimSpace data), w)).
  { rewrite getJWTSecret_prefix by done. rewrite Hr, Hf. by destruct data. }
  split; [exact E|].
  intros Hsp. rewrite E. unfold TrimSpace. by rewrite trimFront_all_space.
Qed.

(** X25: with no JWT_SECRET and no stored secret, a secret is generated:
    the lower-case hexadecimal form of the random bytes, two digits per
    byte. It is written to the secret file when that is writable (a
    failed write is ignored and changes nothing), the environment is left
    alone, and, the file being readable, every later call returns the
    same secret from the file, whatever the random source would give. *)
Theorem getJWTSecret_generates_and_persists (w : World) (bytes : string)
    (later : nat → string + string) :
  env w "JWT_SECRET" = EmptyString →
  no_stored_secret w →
  rand_Read 32 = inl bytes →
  ∃ w1,
    getJWTSecret_with rand_Read w = (Logger.Ok (EncodeToString bytes), w1)
    ∧ String.length (EncodeToString bytes) = 2 * String.length bytes
    ∧ env w1 = env w ∧ environment w1 = environment w
    ∧ files w1 = (if writable (secret_file w)
                  then <[secret_file w := EncodeToString bytes]> (files w)
                  else files w)
    ∧ (writable (secret_file w) = true → readable (secret_file w) = true →
       bytes ≠ EmptyString →
       getJWTSecret_with later w1 = (Logger.Ok (EncodeToString bytes), w1)).
Proof.
  intros He Hnone Hrand.
  rewrite getJWTSecret_prefix by done.
  assert (Hmiss : match (if readable (secret_file w)
                         then files w !! secret_file w else None) with
                  | Some (String.String _ _) => False
                  | _ => True
                  end).
  { destruct Hnone as [-> | [-> | ->]]; by repeat case_match. }
  destruct (if readable (secret_file w) then files w !! secret_file w else None)
    as [[|a data]|]; try done;
    rewrite Hrand; unfold os_WriteFile_, mbind, CM_bind, cbind; cbn [fst snd];
    (destruct (logger_Debug_returns os_MkdirAll os_OpenFile filepath_Dir
                strings_ToLower Level_Set "Generated persistent JWT secret"
                [AString "path"; AString (secret_file w)]
                (if writable (secret_file w)
                 then set_files w (<[secret_file w := EncodeToString bytes]> (files w))
                 else w) ltac:(done)) as (st & ->));
    (eexists; split; [reflexivity|]);
    (split; [apply EncodeToString_length|]);
    (split; [by destruct (writable (secret_file w))|]);
    (split; [by destruct (writable (secret_file w))|]);
    (split; [by destruct (writable (secret_file w))|]);
    intros Hw Hr Hb; rewrite Hw;
    (rewrite getJWTSecret_prefix by done); cbn [env files set_logs set_files];
    rewrite Hr, lookup_insert_eq;
    (destruct (EncodeToString bytes) as [|c rest] eqn:Eh;
     [ apply (f_equal String.length) in Eh;
       rewrite EncodeToString_length in Eh; destruct bytes; simpl in Eh; done |]);
    rewrite <- Eh; (rewrite TrimSpace_hex by apply EncodeToString_chars); done.
Qed.

End SecretFacts.

(** ** Configuration: [Load] *)

Section LoadFacts.
Import ConfigEnv.
Local Open Scope list_scope.

Variable os_MkdirAll : string → option string.
Variable os_OpenFile : string → option string.
Variable filepath_Dir : string → string.
Variable strings_ToLower : string → string.
Variable Level_Set : string → option Logger.Level.
Variable runtime_GOOS : string.
Variable runtime_GOARCH : string.
Variable readable : string → bool.
Variable writable : string → bool.
Variable rand_Read : nat → string + string.
Variable exec_LookPath : string → option string.
Variable godotenv_Load : (string → string) → option string * (string → string).

#[local] Existing Instance CM_ret.
#[local] Existing Instance CM_bind.
#[local] Set Warnings "-inconsistent-scopes".

Abbreviation secret_path w :=
  (if decide (env w "JWT_SECRET_FILE" ≠ EmptyString)
   then env w "JWT_SECRET_FILE" else "data/jwt_secret").

(** What stays fixed once the .env file is loaded and the environment
    detected. *)
Abbreviation settled e det :=
  (fun w : World => env w = e ∧ environment w = det).

(** The value [getEnv] gives under an environment. *)
Abbreviation env_or e key fallback :=
  (if decide (e key ≠ EmptyString) then e key else fallback).

Lemma getEnv_run key fallback w :
  getEnv key fallback w = (Logger.Ok (env_or (env w) key fallback), w).
Proof.
  unfold getEnv, os_Getenv, mbind, CM_bind, cbind. cbn [fst snd].
  by destruct (decide (env w key ≠ EmptyString)).
Qed.

Lemma getJWTSecret_ensures e det :
  ensures (settled e det)
    (getJWTSecret os_MkdirAll os_OpenFile filepath_Dir strings_ToLower
       Level_Set readable writable rand_Read)
    (fun _ w => settled e det w).
Proof.
  intros w [He Hd].
  destruct (decide (env w "JWT_SECRET" ≠ EmptyString)) as [Hs|Hs].
  { exists (env w "JWT_SECRET"), w. split; [|done].
    unfold getJWTSecret, os_Getenv, mbind, CM_bind, cbind. cbn [fst snd].
    by destruct (decide (env w "JWT_SECRET" ≠ EmptyString)). }
  apply dec_stable in Hs.
  rewrite (getJWTSecret_prefix os_MkdirAll os_OpenFile filepath_Dir
             strings_ToLower Level_Set readable writable rand_Read w Hs).
  destruct (if readable (secret_path w) then files w !! secret_path w else None)
    as [[|a data]|]; try (by eexists _, w);
    (destruct (rand_Read 32) as [bytes|err];
     [ unfold os_WriteFile_, mbind, CM_bind, cbind; cbn [fst snd];
       destruct (logger_Debug_returns os_MkdirAll os_OpenFile filepath_Dir
                   strings_ToLower Level_Set "Generated persistent JWT secret"
                   [AString "path"; AString (secret_path w)]
                   (if writable (secret_path w)
                    then set_files w
                           (<[secret_path w := EncodeToString bytes]> (files w))
                    else w) ltac:(done)) as (st & ->);
       eexists _, _; split; [reflexivity|];
       by destruct (writable (secret_path w))
     | unfold mbind, CM_bind, cbind;
       destruct (logger_Warn_returns os_MkdirAll os_OpenFile filepath_Dir
                   strings_ToLower Level_Set
                   "Could not generate secure JWT secret, using fallback"
                   [AString "error"; AError err] w ltac:(done)) as (st & ->);
       by eexists _, _ ]).
Qed.

(** X27: [findUVPath]: a non-empty UV_PATH is returned as it is, without a
    look at PATH and without a log entry; otherwise the path that
    [exec.LookPath] finds for "uv"; and "uv" itself when it finds none.
    Neither the environment nor the files change. *)
Theorem findUVPath_precedence (w : World) :
  ∃ w',
    findUVPath os_MkdirAll os_OpenFile filepath_Dir strings_ToLower
      Level_Set exec_LookPath w
    = (Logger.Ok (if decide (env w "UV_PATH" ≠ EmptyString) then env w "UV_PATH"
                  else default "uv" (exec_LookPath "uv")), w')
    ∧ env w' = env w ∧ files w' = files w ∧ environment w' = environment w
    ∧ (env w "UV_PATH" ≠ EmptyString → w' = w).
Proof.
  unfold findUVPath, os_Getenv, mbind, CM_bind, cbind. cbn [fst snd].
  destruct (decide (env w "UV_PATH" ≠ EmptyString)) as [Hu|Hu].
  { exists w. by repeat split. }
  destruct (exec_LookPath "uv") as [path|].
  - destruct (logger_Debug_returns os_MkdirAll os_OpenFile filepath_Dir
                strings_ToLower Level_Set "Found UV package manager"
                [AString "path"; AString path] w ltac:(done)) as (st & ->).
    eexists. by repeat split.
  - destruct (logger_Warn_returns os_MkdirAll os_OpenFile filepath_Dir
                strings_ToLower Level_Set
                "UV package manager not found in PATH, using fallback"
                [AString "fallback"; AString "uv"] w ltac:(done)) as (st & ->).
    eexists. by repeat split.
Qed.

Lemma findUVPath_ensures e det :
  ensures (settled e det)
    (findUVPath os_MkdirAll os_OpenFile filepath_Dir strings_ToLower
       Level_Set exec_LookPath)
    (fun _ w => settled e det w).
Proof.
  intros w [He Hd].
  unfold findUVPath, os_Getenv, mbind, CM_bind, cbind. cbn [fst snd].
  destruct (decide (env w "UV_PATH" ≠ EmptyString)); [by eexists _, w|].
  destruct (exec_LookPath "uv") as [path|].
  - destruct (logger_Debug_returns os_MkdirAll os_OpenFile filepath_Dir
                strings_ToLower Level_Set "Found UV package manager"
                [AString "path"; AString path] w ltac:(done)) as (st & ->).
    by eexists _, _.
  - destruct (logger_Warn_returns os_MkdirAll os_OpenFile filepath_Dir
                strings_ToLower Level_Set
                "UV package manager not found in PATH, using fallback"
                [AString "fallback"; AString "uv"] w ltac:(done)) as (st & ->).
    by eexists _, _.
Qed.

(** X28: [Load] always returns a configuration, with or without a .env
    file. Every setting is read from the environment as it is after the
    .env file was loaded: PORT, HOST, DATABASE_PATH, UPLOAD_DIR and
    WHISPERX_ENV are the variable when it is non-empty and 8080,
    localhost, data/scriberr.db, data/uploads and data/whisperx-env
    otherwise, so none of them is ever empty; and the environment
    capabilities in the configuration are the freshly detected ones, which
    the package now also reports through [EnvironmentInfo]. *)
Theorem Load_fills_defaults (w : World) :
  ∃ c w',
    Load os_MkdirAll os_OpenFile filepath_Dir strings_ToLower Level_Set
      runtime_GOOS runtime_GOARCH readable writable rand_Read exec_LookPath
      godotenv_Load w = (Logger.Ok c, w')
    ∧ env w' = (godotenv_Load (env w)).2
    ∧ Config.Port c = env_or (env w') "PORT" "8080"
    ∧ Config.Host c = env_or (env w') "HOST" "localhost"
    ∧ Config.DatabasePath c = env_or (env w') "DATABASE_PATH" "data/scriberr.db"
    ∧ Config.UploadDir c = env_or (env w') "UPLOAD_DIR" "data/uploads"
    ∧ Config.WhisperXEnv c = env_or (env w') "WHISPERX_ENV" "data/whisperx-env"
    ∧ Config.Port c ≠ EmptyString ∧ Config.Host c ≠ EmptyString
    ∧ Config.DatabasePath c ≠ EmptyString ∧ Config.UploadDir c ≠ EmptyString
    ∧ Config.WhisperXEnv c ≠ EmptyString
    ∧ Config.Environment_ c = environment w'
    ∧ EnvironmentInfo w' = (Logger.Ok (Config.Environment_ c), w')
    ∧ Config.OS (Config.Environment_ c) = runtime_GOOS
    ∧ Config.Arch (Config.Environment_ c) = runtime_GOARCH.
Proof.
  set (e := (godotenv_Load (env w)).2).
  (* the .env file *)
  assert (H1 : ∃ w1, (fun w0 : World =>
              match godotenv_Load (env w0) with
              | (Some _, e0) =>
                  logger_Debug os_MkdirAll os_OpenFile filepath_Dir
                    strings_ToLower Level_Set
                    "No .env file found, using system environment variables" []
                    (set_env w0 e0)
              | (None, e0) => (Logger.Ok tt, set_env w0 e0)
              end) w = (Logger.Ok tt, w1) ∧ env w1 = e).
  { unfold e. destruct (godotenv_Load (env w)) as [[err|] e0]; simpl.
    - destruct (logger_Debug_returns os_MkdirAll os_OpenFile filepath_Dir
                  strings_ToLower Level_Set
                  "No .env file found, using system environment variables" []
                  (set_env w e0) ltac:(done)) as (st & ->).
      by eexists.
    - by eexists. }
  destruct H1 as (w1 & E1 & He1).
  (* detection *)
  destruct (detectEnvironment_run os_MkdirAll os_OpenFile filepath_Dir
              strings_ToLower Level_Set runtime_GOOS runtime_GOARCH w1)
    as (device & st & E2 & _).
  set (det := {| Config.OS := runtime_GOOS; Config.Arch := runtime_GOARCH;
                 Config.SupportsNvidiaStack := _; Config.SupportsMPS := _;
                 Config.DefaultWhisperDevice := device |}) in E2.
  set (w2 := set_environment (set_logs w1 st) det).
  assert (Hw2 : settled e det w2) by (by split).
  (* the fields *)
  destruct (getJWTSecret_ensures e det w2 Hw2) as (jwt & w3 & E3 & He3 & Hd3).
  destruct (findUVPath_ensures e det w3 (conj He3 Hd3))
    as (uv & w4 & E4 & [He4 Hd4]).
  eexists _, w4. split.
  { unfold Load. unfold mbind, CM_bind, cbind.
    rewrite E1, E2. fold w2.
    rewrite !(getEnv_run _ _ w2), E3, (getEnv_run _ _ w3), E4,
      (getEnv_run _ _ w4).
    unfold EnvironmentInfo. reflexivity. }
  cbn [Config.Port Config.Host Config.DatabasePath Config.UploadDir
       Config.WhisperXEnv Config.Environment_].
  assert (Hw2e : env w2 = e) by done.
  rewrite Hw2e, He3, He4, Hd4.
  repeat split; try done; try (by case_decide).
  unfold EnvironmentInfo. by rewrite Hd4.
Qed.

End LoadFacts.

(** ** Configuration: the snapshot of a loaded configuration *)

Section SnapshotFacts.
Import Config.

Lemma Snapshot_loaded c :
  ∃ m, Snapshot (Some c) = Returns m
       ∧ m = <["port" := AString (Port c)]>
             (<["host" := AString (Host c)]>
             (<["database_path" := AString (DatabasePath c)]>
             (<["jwt_secret" := AString (JWTSecret c)]>
             (<["upload_dir" := AString (UploadDir c)]>
             (<["uv_path" := AString (UVPath c)]>
             (<["whisperx_env" := AString (WhisperXEnv c)]>
             (<["environment" := AMap
                 (<["os" := AString (OS (Environment_ c))]>
                 (<["arch" := AString (Arch (Environment_ c))]>
                 (<["supports_nvidia_stack" :=
                      ABool (SupportsNvidiaStack (Environment_ c))]>
                 (<["supports_mps" := ABool (SupportsMPS (Environment_ c))]>
                 (<["default_whisper_device" :=
                      AString (DefaultWhisperDevice (Environment_ c))]>
                  ∅)))))]> ∅))))))).
Proof. by eexists. Qed.

(** X29: the snapshot of a loaded configuration has exactly the eight keys
    port, host, database_path, jwt_secret, upload_dir, uv_path,
    whisperx_env and environment; it holds the JWT secret in clear under
    jwt_secret; and it loses nothing: two configurations with the same
    snapshot are the same configuration. *)
Theorem Snapshot_keeps_every_field :
  (∀ c, ∃ m,
     Snapshot (Some c) = Returns m
     ∧ dom m = {[ "port"; "host"; "database_path"; "jwt_secret"; "upload_dir";
                  "uv_path"; "whisperx_env"; "environment" ]}
     ∧ m !! "jwt_secret" = Some (AString (JWTSecret c)))
  ∧ (∀ c1 c2, Snapshot (Some c1) = Snapshot (Some c2) → c1 = c2).
Proof.
  split.
  - intros c. destruct (Snapshot_loaded c) as (m & E & ->).
    eexists. split; [exact E|]. split.
    + rewrite !dom_insert_L, dom_empty_L. set_solver.
    + by repeat (rewrite lookup_insert_ne by done); rewrite lookup_insert_eq.
  - intros c1 c2 H.
    destruct (Snapshot_loaded c1) as (m1 & E1 & Hm1).
    destruct (Snapshot_loaded c2) as (m2 & E2 & Hm2).
    rewrite E1, E2 in H. injection H as Hm. rewrite Hm1, Hm2 in Hm.
    clear E1 E2 Hm1 Hm2 m1 m2.
    pose proof (fun k : string => f_equal (fun m : gmap string any => m !! k) Hm)
      as look. cbv beta in look.
    pose proof (look "port") as Hport.
    pose proof (look "host") as Hhost.
    pose proof (look "database_path") as Hdb.
    pose proof (look "jwt_secret") as Hjwt.
    pose proof (look "upload_dir") as Hup.
    pose proof (look "uv_path") as Huv.
    pose proof (look "whisperx_env") as Hwx.
    pose proof (look "environment") as Henv.
    clear look Hm.
    repeat first [rewrite lookup_insert_eq in Hport | rewrite lookup_insert_ne in Hport by done].
    repeat first [rewrite lookup_insert_eq in Hhost | rewrite lookup_insert_ne in Hhost by done].
    repeat first [rewrite lookup_insert_eq in Hdb | rewrite lookup_insert_ne in Hdb by done].
    repeat first [rewrite lookup_insert_eq in Hjwt | rewrite lookup_insert_ne in Hjwt by done].
    repeat first [rewrite lookup_insert_eq in Hup | rewrite lookup_insert_ne in Hup by done].
    repeat first [rewrite lookup_insert_eq in Huv | rewrite lookup_insert_ne in Huv by done].
    repeat first [rewrite lookup_insert_eq in Hwx | rewrite lookup_insert_ne in Hwx by done].
    repeat first [rewrite lookup_insert_eq in Henv | rewrite lookup_insert_ne in Henv by done].
    pose proof (f_equal (fun o : option any =>
                           match o with
                           | Some (AMap m) => m
                           | _ => ∅
                           end) Henv) as Hinner.
    cbv beta iota in Hinner.
    pose proof (fun k : string => f_equal (fun m : gmap string any => m !! k) Hinner)
      as look. cbv beta in look.
    pose proof (look "os") as Hos.
    pose proof (look "arch") as Harch.
    pose proof (look "supports_nvidia_stack") as Hnv.
    pose proof (look "supports_mps") as Hmps.
    pose proof (look "default_whisper_device") as Hdev.
    clear look Hinner.
    repeat first [rewrite lookup_insert_eq in Hos | rewrite lookup_insert_ne in Hos by done].
    repeat first [rewrite lookup_insert_eq in Harch | rewrite lookup_insert_ne in Harch by done].
    repeat first [rewrite lookup_insert_eq in Hnv | rewrite lookup_insert_ne in Hnv by done].
    repeat first [rewrite lookup_insert_eq in Hmps | rewrite lookup_insert_ne in Hmps by done].
    repeat first [rewrite lookup_insert_eq in Hdev | rewrite lookup_insert_ne in Hdev by done].
    destruct c1 as [p1 h1 d1 j1 u1 v1 x1 [o1 a1 n1 s1 w1]].
    destruct c2 as [p2 h2 d2 j2 u2 v2 x2 [o2 a2 n2 s2 w2]].
    simpl in *. congruence.
Qed.

End SnapshotFacts.

(** ** Instances of the properties that have preconditions *)

Section Instances.
Local Open Scope list_scope.

Import Samples.




Lemma WorkerOperation_silent_by_default_witness :
  Logger.defaultLogger Logger.initialState = None
  ∧ no_env "LOG_LEVEL" = EmptyString
  ∧ Logger.out_stdout
      (Logger.WorkerOperation no_env all_ok all_ok dir_of same same levels
         3 "job-1" "claim" [AString "attempt"; AInt 2] Logger.initialState).2
    = [].
Proof.
  assert (H : Logger.defaultLogger Logger.initialState = None) by reflexivity.
  assert (He : no_env "LOG_LEVEL" = EmptyString) by reflexivity.
  split; [exact H|]. split; [exact He|].
  exact (proj1 (WorkerOperation_silent_by_default no_env all_ok all_ok dir_of
                  same same levels Logger.initialState 3 "job-1" "claim"
                  [AString "attempt"; AInt 2] H He)).
Defined.

Lemma serveEmbeddedFile_missing_file_witness :
  dist (join Web.distDir "vite.svg") = Web.FileError "file does not exist"
  ∧ ∃ st',
      Web.serveEmbeddedFile no_env all_ok all_ok dir_of same same levels dist
        join ext_of mime_of (request "GET" "/vite.svg") "vite.svg"
        Web.cacheTopLevel EmptyString at_info
      = (Logger.Ok (false, request "GET" "/vite.svg"), st').
Proof.
  assert (H : dist (join Web.distDir "vite.svg")
              = Web.FileError "file does not exist") by reflexivity.
  split; [exact H|].
  destruct (serveEmbeddedFile_missing_file no_env all_ok all_ok dir_of same
              same levels dist join ext_of mime_of (request "GET" "/vite.svg")
              "vite.svg" Web.cacheTopLevel EmptyString _ at_info H)
    as (st' & E & _).
  by exists st'.
Defined.

Lemma serveEmbeddedFile_serves_file_witness :
  (dist (join Web.distDir "index.html") = Web.FileData "<html></html>"
   ∧ Web.Written (Web.c_Writer (request "GET" "/")) = false)
  ∧ ∃ c',
      Web.serveEmbeddedFile no_env all_ok all_ok dir_of same same levels dist
        join ext_of mime_of (request "GET" "/") "index.html"
        Web.cacheIndex EmptyString at_info
      = (Logger.Ok (true, c'), at_info)
      ∧ Web.w_status (Web.c_Writer c') = 200%Z.
Proof.
  assert (H : dist (join Web.distDir "index.html") = Web.FileData "<html></html>")
    by reflexivity.
  assert (Hw : Web.Written (Web.c_Writer (request "GET" "/")) = false)
    by reflexivity.
  split; [by split|].
  destruct (serveEmbeddedFile_serves_file no_env all_ok all_ok dir_of same
              same levels dist join ext_of mime_of (request "GET" "/")
              "index.html" Web.cacheIndex EmptyString _ at_info H Hw)
    as (c' & E & Hs & _).
  by exists c'.
Defined.

Lemma noRoute_api_is_json_404_witness :
  ((∃ rest, Web.URLPath (Web.c_Request (request "DELETE" "/apiary")) = "/api" +:+ rest)
   ∧ Web.Written (Web.c_Writer (request "DELETE" "/apiary")) = false)
  ∧ ∃ c',
      Web.noRoute no_env all_ok all_ok dir_of same same levels dist join ext_of
        mime_of marshal (request "DELETE" "/apiary") at_info
      = (Logger.Ok c', at_info)
      ∧ Web.w_status (Web.c_Writer c') = 404%Z.
Proof.
  assert (H : ∃ rest, Web.URLPath (Web.c_Request (request "DELETE" "/apiary"))
                      = "/api" +:+ rest) by (by exists "ary").
  assert (Hw : Web.Written (Web.c_Writer (request "DELETE" "/apiary")) = false)
    by reflexivity.
  split; [by split|].
  destruct (noRoute_api_is_json_404 no_env all_ok all_ok dir_of same same
              levels dist join ext_of mime_of marshal
              (request "DELETE" "/apiary") at_info H Hw)
    as (c' & E & Hs & _).
  by exists c'.
Defined.

Lemma noRoute_rejects_other_methods_witness :
  (Web.HasPrefix (Web.URLPath (Web.c_Request (request "POST" "/post-only"))) "/api"
     = false
   ∧ Web.Method (Web.c_Request (request "POST" "/post-only")) ≠ "GET"
   ∧ Web.Method (Web.c_Request (request "POST" "/post-only")) ≠ "HEAD"
   ∧ Web.Written (Web.c_Writer (request "POST" "/post-only")) = false)
  ∧ Web.handleNoRoute no_env all_ok all_ok dir_of same same levels dist join
      ext_of mime_of marshal (request "POST" "/post-only") at_info
    = (Logger.Ok
         (Web.mkContext (Web.mkRequest "POST" "/post-only") []
            (Web.mkResponseWriter 404 18 {[ "Content-Type" := "text/plain" ]}
               "404 page not found")),
       at_info).
Proof.
  assert (H1 : Web.HasPrefix
                 (Web.URLPath (Web.c_Request (request "POST" "/post-only")))
                 "/api" = false) by reflexivity.
  assert (H2 : Web.Method (Web.c_Request (request "POST" "/post-only")) ≠ "GET")
    by discriminate.
  assert (H3 : Web.Method (Web.c_Request (request "POST" "/post-only")) ≠ "HEAD")
    by discriminate.
  assert (H4 : Web.Written (Web.c_Writer (request "POST" "/post-only")) = false)
    by reflexivity.
  split; [by repeat split|].
  exact (proj2 (proj2 (noRoute_rejects_other_methods no_env all_ok all_ok dir_of
                         same same levels dist join ext_of mime_of marshal
                         (request "POST" "/post-only") at_info H1 H2 H3 H4))).
Defined.

Lemma noRoute_serves_index_witness :
  (Web.HasPrefix (Web.URLPath (Web.c_Request (request "GET" "/non-existent")))
     "/api" = false
   ∧ (Web.Method (Web.c_Request (request "GET" "/non-existent")) = "GET"
      ∨ Web.Method (Web.c_Request (request "GET" "/non-existent")) = "HEAD")
   ∧ Web.Written (Web.c_Writer (request "GET" "/non-existent")) = false)
  ∧ ∃ c',
      Web.noRoute no_env all_ok all_ok dir_of same same levels dist join ext_of
        mime_of marshal (request "GET" "/non-existent") at_info
      = (Logger.Ok c', at_info)
      ∧ Web.w_header (Web.c_Writer c') !! "Cache-Control" = Some "no-cache".
Proof.
  assert (H1 : Web.HasPrefix
                 (Web.URLPath (Web.c_Request (request "GET" "/non-existent")))
                 "/api" = false) by reflexivity.
  assert (H2 : Web.Method (Web.c_Request (request "GET" "/non-existent")) = "GET"
               ∨ Web.Method (Web.c_Request (request "GET" "/non-existent")) = "HEAD")
    by (left; reflexivity).
  assert (H3 : Web.Written (Web.c_Writer (request "GET" "/non-existent")) = false)
    by reflexivity.
  split; [by repeat split|].
  destruct (proj1 (noRoute_serves_index no_env all_ok all_ok dir_of same same
                     levels dist join ext_of mime_of marshal
                     (request "GET" "/non-existent") at_info H1 H2 H3)
              "<html></html>" eq_refl)
    as (c' & E & _ & _ & Hcc & _).
  by exists c'.
Defined.

Lemma serveTopLevel_file_or_404_witness :
  Web.Written (Web.c_Writer (request "GET" "/vite.svg")) = false
  ∧ ∃ st',
      Web.serveTopLevel no_env all_ok all_ok dir_of same same levels dist join
        ext_of mime_of "vite.svg" (request "GET" "/vite.svg") at_info
      = (Logger.Ok (Web.Status (request "GET" "/vite.svg") Web.StatusNotFound), st').
Proof.
  assert (H : Web.Written (Web.c_Writer (request "GET" "/vite.svg")) = false)
    by reflexivity.
  split; [exact H|].
  destruct (proj2 (serveTopLevel_file_or_404 no_env all_ok all_ok dir_of same
                     same levels dist join ext_of mime_of "vite.svg"
                     (request "GET" "/vite.svg") at_info H)
              "file does not exist" eq_refl) as (st' & E & _).
  by exists st'.
Defined.

Lemma serveAsset_delegates_with_cache_header_witness :
  let c := Web.mkContext (Web.mkRequest "GET" "/assets/app.js")
             [("filepath", "/app.js")] Web.newResponseWriter in
  let files := fun (w : Web.ResponseWriter) (_ : Web.Request) =>
                 Web.Write w "console.log(1)" in
  (¬ ∃ pre post, Web.Param c "filepath" = pre +:+ ".." +:+ post)
  ∧ ∃ w, Web.c_Writer (Web.serveAsset files c) = files w (Web.c_Request c)
         ∧ Web.w_header w !! "Cache-Control"
             = Some "public, max-age=31536000, immutable".
Proof.
  intros c files.
  assert (H : ¬ ∃ pre post, Web.Param c "filepath" = pre +:+ ".." +:+ post).
  { intros Hsub. apply Contains_spec in Hsub. discriminate Hsub. }
  split; [exact H|].
  destruct (serveAsset_delegates_with_cache_header files c H)
    as (w & E & Hcc & _).
  by exists w.
Defined.

Lemma getJWTSecret_prefers_environment_witness :
  ConfigEnv.env (with_env "JWT_SECRET" "s3cret" bare) "JWT_SECRET" ≠ EmptyString
  ∧ ConfigEnv.getJWTSecret all_ok all_ok dir_of same levels (always true)
      (always true) (fun _ => inr "no entropy")
      (with_env "JWT_SECRET" "s3cret" bare)
    = (Logger.Ok "s3cret", with_env "JWT_SECRET" "s3cret" bare).
Proof.
  assert (H : ConfigEnv.env (with_env "JWT_SECRET" "s3cret" bare) "JWT_SECRET"
              ≠ EmptyString) by discriminate.
  split; [exact H|].
  exact (getJWTSecret_prefers_environment all_ok all_ok dir_of same levels
           (always true) (always true) (fun _ => inr "no entropy")
           (with_env "JWT_SECRET" "s3cret" bare) H).
Defined.

Lemma getJWTSecret_reads_secret_file_witness :
  let w := ConfigEnv.set_files bare {[ "data/jwt_secret" := "  " ]} in
  (ConfigEnv.env w "JWT_SECRET" = EmptyString
   ∧ always true "data/jwt_secret" = true
   ∧ ConfigEnv.files w !! "data/jwt_secret" = Some "  "
   ∧ "  " ≠ EmptyString)
  ∧ ConfigEnv.getJWTSecret all_ok all_ok dir_of same levels (always true)
      (always true) (fun _ => inl "AB") w
    = (Logger.Ok EmptyString, w).
Proof.
  intros w.
  assert (H1 : ConfigEnv.env w "JWT_SECRET" = EmptyString) by reflexivity.
  assert (H2 : always true "data/jwt_secret" = true) by reflexivity.
  assert (H3 : ConfigEnv.files w !! "data/jwt_secret" = Some "  ") by reflexivity.
  assert (H4 : "  " ≠ EmptyString) by discriminate.
  split; [by repeat split|].
  apply (proj2 (getJWTSecret_reads_secret_file all_ok all_ok dir_of same levels
                  (always true) (always true) (fun _ => inl "AB") w "  "
                  H1 H2 H3 H4)).
  repeat constructor.
Defined.

Lemma getJWTSecret_generates_and_persists_witness :
  (ConfigEnv.env bare "JWT_SECRET" = EmptyString
   ∧ ConfigEnv.files bare !! "data/jwt_secret" = None
   ∧ (fun _ : nat => @inl string string "AB") 32 = inl "AB")
  ∧ ∃ w1,
      ConfigEnv.getJWTSecret all_ok all_ok dir_of same levels (always true)
        (always true) (fun _ => inl "AB") bare
      = (Logger.Ok "4142", w1)
      ∧ ConfigEnv.getJWTSecret all_ok all_ok dir_of same levels (always true)
          (always true) (fun _ => inr "no entropy") w1
        = (Logger.Ok "4142", w1).
Proof.
  assert (H1 : ConfigEnv.env bare "JWT_SECRET" = EmptyString) by reflexivity.
  assert (H2 : ConfigEnv.files bare !! "data/jwt_secret" = None) by reflexivity.
  assert (H3 : (fun _ : nat => @inl string string "AB") 32 = inl "AB")
    by reflexivity.
  split; [by repeat split|].
  destruct (getJWTSecret_generates_and_persists all_ok all_ok dir_of same
              levels (always true) (always true) (fun _ => inl "AB") bare "AB"
              (fun _ => inr "no entropy") H1 (or_intror (or_introl H2)) H3)
    as (w1 & E & _ & _ & _ & _ & Hagain).
  exists w1. split; [exact E|].
  apply Hagain; [reflexivity | reflexivity | discriminate].
Defined.

End Instances.
